(** * webp-shim: the buffer and handle protocol of [webp.c]

    A shallow embedding of [build/image/webp-shim/src/webp.c] (bitjs).
    The C functions become computations in a state-and-fault monad over an
    explicit heap; the WebP decoder, the stb image writers and the C
    allocator are external and enter through a [world] record. *)

From Stdlib Require Import ZArith Lia.
From Stdlib.Strings Require Import Byte.
From stdpp Require Import gmap list strings.

Local Open Scope Z_scope.

(** ** Machine integers

    The shim is built with emscripten for wasm32: [int] is a 32-bit signed
    integer and [size_t] a 32-bit unsigned one.  Values are kept in [Z] and
    every C operation writes its wrap-around out. *)

Module CInt.

Definition INT_MAX : Z := 2147483647.
Definition SIZE_MAX : Z := 4294967295.

Definition to_int (z : Z) : Z := (z + 2147483648) mod 4294967296 - 2147483648.
Definition to_size_t (z : Z) : Z := z mod 4294967296.

Definition sizeof_int : Z := 4.
Definition sizeof_uint8_t : Z := 1.

End CInt.

Import CInt.

(** ** Memory

    A pointer is null, a byte offset into a block, or an integer cast to a
    pointer that lies in no block.  A block holds one object: raw bytes
    ([None] is an uninitialised byte), an [ImageBuffer] struct, or a
    stretchy buffer (two [int] header words, capacity and count, followed
    by the elements).  A field is [None] until it is first stored to. *)

Inductive ptr : Type :=
| NULL
| Ptr (b : N) (off : Z)
| Wild (addr : Z).

Global Instance ptr_eq_dec : EqDecision ptr.
Proof. solve_decision. Defined.

Definition is_null (p : ptr) : bool :=
  match p with NULL => true | _ => false end.

Definition ptr_add (p : ptr) (n : Z) : ptr :=
  match p with
  | NULL => if n =? 0 then NULL else Wild n
  | Ptr b off => Ptr b (off + n)
  | Wild a => Wild (a + n)
  end.

Inductive object : Type :=
| Raw (data : list (option byte))
| Image (byte_count : option Z) (bytes : option ptr)
| Stretchy (m n : option Z) (data : list (option byte)).

Definition sizeof_ImageBuffer : Z := 8.
Definition sb_header : Z := 2 * sizeof_int.

Definition uninit (n : Z) : list (option byte) := replicate (Z.to_nat n) None.

(** What the process prints and which library entry points it calls. *)
Inductive event : Type :=
| EvStdout (msg : string)
| EvStderr (msg : string)
| EvMalloc (size : Z) (p : ptr)
| EvRealloc (old : ptr) (size : Z) (p : ptr)
| EvFree (p : ptr)
| EvWebPGetInfo (data : ptr) (size : Z)
| EvWebPDecodeRGBA (data : ptr) (size : Z)
| EvWebPFree (p : ptr)
| EvWritePng (w h comp : Z) (data : ptr) (stride : Z)
| EvWriteJpg (w h comp : Z) (data : ptr) (quality : Z).

Record state : Type := State {
  st_heap : gmap N object;
  st_log : list event
}.

(** The collaborators outside [webp.c]:
    - [malloc_ok h n]: whether the C allocator can serve [n] bytes in [h];
    - [webp_get_info], [webp_decode_rgba]: libwebp's answers for the bytes
      at a pointer (dimensions; dimensions and RGBA pixels);
    - [png_writer], [jpg_writer]: for the dimensions, component count,
      pixel bytes and stride or quality it is given, the chunks an stb
      writer hands to its write callback, in order, and the [int] it
      returns. *)
Record world : Type := World {
  malloc_ok : gmap N object -> Z -> bool;
  webp_get_info : gmap N object -> ptr -> Z -> option (Z * Z);
  webp_decode_rgba : gmap N object -> ptr -> Z -> option (Z * Z * list byte);
  png_writer : Z -> Z -> Z -> list (option byte) -> Z -> list (list byte) * Z;
  jpg_writer : Z -> Z -> Z -> list (option byte) -> Z -> list (list byte) * Z
}.

(** ** The monad: state passing, [None] is a fault (undefined behaviour) *)

Definition M (A : Type) : Type := state -> option (A * state).

Definition ret {A} (a : A) : M A := fun s => Some (a, s).
Definition bind {A B} (c : M A) (k : A -> M B) : M B :=
  fun s => match c s with
           | Some (a, s') => k a s'
           | None => None
           end.
Definition fault {A} : M A := fun _ => None.

Global Instance M_ret : MRet M := @ret.
Global Instance M_bind : MBind M := fun A B k c => bind c k.

Definition get_heap : M (gmap N object) := fun s => Some (st_heap s, s).
Definition put_heap (h : gmap N object) : M unit :=
  fun s => Some (tt, State h (st_log s)).
Definition emit (e : event) : M unit :=
  fun s => Some (tt, State (st_heap s) (st_log s ++ [e])).

Definition when (b : bool) (c : M unit) : M unit := if b then c else ret tt.

Fixpoint for_each {A} (l : list A) (f : A -> M unit) : M unit :=
  match l with
  | [] => ret tt
  | x :: l' => f x ;; for_each l' f
  end.

(** ** Typed access to the heap *)

(** The object a pointer to the start of a live block designates. *)
Definition object_at (p : ptr) : M (N * object) :=
  match p with
  | Ptr b off =>
      h ← get_heap;
      match h !! b with
      | Some o => if off =? 0 then ret (b, o) else fault
      | None => fault
      end
  | _ => fault
  end.

Definition set_object (b : N) (o : object) : M unit :=
  h ← get_heap; put_heap (<[b := o]> h).

(** [p->byte_count] and [p->bytes] for [ImageBuffer* p]. *)
Definition load_byte_count (p : ptr) : M Z :=
  '(_, o) ← object_at p;
  match o with Image (Some v) _ => ret v | _ => fault end.

Definition load_bytes (p : ptr) : M ptr :=
  '(_, o) ← object_at p;
  match o with Image _ (Some v) => ret v | _ => fault end.

(** A store through an [ImageBuffer*] into fresh [malloc] memory of the
    struct's size gives that memory its type. *)
Definition store_byte_count (p : ptr) (v : Z) : M unit :=
  '(b, o) ← object_at p;
  match o with
  | Image _ bs => set_object b (Image (Some v) bs)
  | Raw d => if Z.of_nat (length d) =? sizeof_ImageBuffer
             then set_object b (Image (Some v) None) else fault
  | _ => fault
  end.

Definition store_bytes (p : ptr) (v : ptr) : M unit :=
  '(b, o) ← object_at p;
  match o with
  | Image bc _ => set_object b (Image bc (Some v))
  | Raw d => if Z.of_nat (length d) =? sizeof_ImageBuffer
             then set_object b (Image None (Some v)) else fault
  | _ => fault
  end.

(** [p[i]] for [int* p] at the start of a stretchy block, [i] in 0..1. *)
Definition load_int (p : ptr) (i : Z) : M Z :=
  '(_, o) ← object_at p;
  match o with
  | Stretchy m n _ =>
      if i =? 0 then match m with Some v => ret v | None => fault end
      else if i =? 1 then match n with Some v => ret v | None => fault end
      else fault
  | _ => fault
  end.

Definition store_int (p : ptr) (i : Z) (v : Z) : M unit :=
  '(b, o) ← object_at p;
  match o with
  | Stretchy m n d =>
      if i =? 0 then set_object b (Stretchy (Some v) n d)
      else if i =? 1 then set_object b (Stretchy m (Some v) d)
      else fault
  | Raw d =>
      if sb_header <=? Z.of_nat (length d) then
        let d' := drop (Z.to_nat sb_header) d in
        if i =? 0 then set_object b (Stretchy (Some v) None d')
        else if i =? 1 then set_object b (Stretchy None (Some v) d')
        else fault
      else fault
  | _ => fault
  end.

(** [memcpy(dst, src, n)] into the element area of a stretchy block or
    into raw bytes.  Copying nothing touches nothing; otherwise both
    ranges must lie inside their objects. *)
Definition write_bytes (i : Z) (src : list byte) (d : list (option byte))
  : list (option byte) :=
  take (Z.to_nat i) d ++ (Some <$> src) ++ drop (Z.to_nat i + length src) d.

Definition in_range (i n : Z) {A} (d : list A) : bool :=
  (0 <=? i) && (i + n <=? Z.of_nat (length d)).

Definition memcpy (dst : ptr) (src : list byte) (n : Z) : M unit :=
  if n =? 0 then ret tt else
  match dst with
  | Ptr b off =>
      h ← get_heap;
      let chunk := take (Z.to_nat n) src in
      match h !! b with
      | Some (Stretchy m c d) =>
          let i := off - sb_header in
          if in_range i n d && in_range 0 n src
          then put_heap (<[b := Stretchy m c (write_bytes i chunk d)]> h)
          else fault
      | Some (Raw d) =>
          if in_range off n d && in_range 0 n src
          then put_heap (<[b := Raw (write_bytes off chunk d)]> h)
          else fault
      | _ => fault
      end
  | _ => fault
  end.

(** The bytes of a raw block, as a reader of the whole block sees them. *)
Definition read_block (p : ptr) : M (list (option byte)) :=
  '(_, o) ← object_at p;
  match o with Raw d => ret d | _ => fault end.

(** ** The C allocator *)

Definition fresh_block (h : gmap N object) : N := fresh (dom h).

Definition alloc_block (o : object) : M ptr :=
  h ← get_heap;
  let b := fresh_block h in
  put_heap (<[b := o]> h) ;;
  ret (Ptr b 0).

(** [free]: null is a no-op; anything but the start of a live block faults. *)
Definition free_block (p : ptr) : M unit :=
  if is_null p then ret tt else
  '(b, _) ← object_at p;
  h ← get_heap; put_heap (delete b h).

Definition free (p : ptr) : M unit := free_block p ;; emit (EvFree p).

(** What [realloc] keeps of an object when its block becomes [size] bytes. *)
Definition resize_object (o : object) (size : Z) : object :=
  match o with
  | Raw d => Raw (resize (Z.to_nat size) None d)
  | Stretchy m n d =>
      if sb_header <=? size
      then Stretchy m n (resize (Z.to_nat (size - sb_header)) None d)
      else Raw (uninit size)
  | Image bc bs =>
      if size =? sizeof_ImageBuffer then Image bc bs else Raw (uninit size)
  end.

Section Shim.

Variable W : world.

Definition malloc (size : Z) : M ptr :=
  h ← get_heap;
  p ← (if malloc_ok W h size then alloc_block (Raw (uninit size)) else ret NULL);
  emit (EvMalloc size p) ;;
  ret p.

(** [realloc]: on a null pointer it is [malloc]; on failure the old block
    stays; on success the contents move to a block of the new size. *)
Definition realloc (p : ptr) (size : Z) : M ptr :=
  if is_null p then malloc size else
  '(b, o) ← object_at p;
  h ← get_heap;
  q ← (if malloc_ok W (delete b h) size
       then put_heap (delete b h) ;; alloc_block (resize_object o size)
       else ret NULL);
  emit (EvRealloc p size q) ;;
  ret q.

(** ** stretchy_buffer.h

    Modelled from the spec: [stretchy_buffer.h] (the stb growable array
    behind [sb_count], [sb_add] and [sb_free]) is included by [webp.c] but
    is not part of the sources at hand.  The spec's Growable Byte Buffer
    has backing storage with a length and a capacity, is append-only and
    "doubles/grows as needed"; the macros below are the stb ones with that
    behaviour.  A stretchy pointer [a] points just past a two-[int] header:
    [stb__sbm] is the capacity, [stb__sbn] the element count.  The macros
    take their array argument as an lvalue, here a pair of a read and a
    write of it. *)

Definition stb__sbraw (a : ptr) : ptr := ptr_add a (- sb_header).
Definition stb__sbm (a : ptr) : M Z := load_int (stb__sbraw a) 0.
Definition stb__sbn (a : ptr) : M Z := load_int (stb__sbraw a) 1.

Definition sb_free (a : ptr) : M unit :=
  if is_null a then ret tt else free (stb__sbraw a).

Definition sb_count (a : ptr) : M Z :=
  if is_null a then ret 0 else stb__sbn a.

Definition stb__sbgrowf (arr : ptr) (increment itemsize : Z) : M ptr :=
  dbl_cur ← (if is_null arr then ret 0
             else m_old ← stb__sbm arr; ret (to_int (2 * m_old)));
  cnt ← sb_count arr;
  let min_needed := to_int (cnt + increment) in
  let m := if dbl_cur >? min_needed then dbl_cur else min_needed in
  p ← realloc (if is_null arr then NULL else stb__sbraw arr)
        (to_size_t (to_int (itemsize * m) + sizeof_int * 2));
  if is_null p then
    (* out of memory: "try to force a NULL pointer exception later" *)
    ret (Wild (2 * sizeof_int))
  else
    when (is_null arr) (store_int p 1 0) ;;
    store_int p 0 m ;;
    ret (ptr_add p sb_header).

Definition stb__sbneedgrow (a : ptr) (n : Z) : M bool :=
  if is_null a then ret true else
  cnt ← stb__sbn a;
  m ← stb__sbm a;
  ret (to_int (cnt + n) >=? m).

Definition stb__sbgrow (get_a : M ptr) (set_a : ptr -> M unit) (n : Z) : M unit :=
  a ← get_a;
  p ← stb__sbgrowf a n sizeof_uint8_t;
  set_a p.

Definition stb__sbmaybegrow (get_a : M ptr) (set_a : ptr -> M unit) (n : Z) : M unit :=
  a ← get_a;
  g ← stb__sbneedgrow a n;
  if (g : bool) then stb__sbgrow get_a set_a n else ret tt.

Definition sb_add (get_a : M ptr) (set_a : ptr -> M unit) (n : Z) : M ptr :=
  stb__sbmaybegrow get_a set_a n ;;
  a ← get_a;
  cnt ← stb__sbn a;
  store_int (stb__sbraw a) 1 (to_int (cnt + n)) ;;
  a ← get_a;
  cnt ← stb__sbn a;
  ret (ptr_add a (cnt - n)).

(** ** libwebp and stb_image_write, as [webp.c] calls them *)

(** [WebPGetInfo] returns nonzero and sets both dimensions on success. *)
Definition WebPGetInfo (data : ptr) (data_size : Z) (width height : Z)
  : M (Z * Z * Z) :=
  emit (EvWebPGetInfo data data_size) ;;
  h ← get_heap;
  match webp_get_info W h data data_size with
  | Some (w, ht) => ret (1, w, ht)
  | None => ret (0, width, height)
  end.

(** [WebPDecodeRGBA] returns a buffer of its own with the pixels, or null. *)
Definition WebPDecodeRGBA (data : ptr) (data_size : Z) (width height : Z)
  : M (ptr * Z * Z) :=
  emit (EvWebPDecodeRGBA data data_size) ;;
  h ← get_heap;
  match webp_decode_rgba W h data data_size with
  | Some (w, ht, pixels) =>
      p ← alloc_block (Raw (Some <$> pixels));
      ret (p, w, ht)
  | None => ret (NULL, width, height)
  end.

Definition WebPFree (p : ptr) : M unit := free_block p ;; emit (EvWebPFree p).

(** The writers call [func(context, data, size)] once per chunk. *)
Definition stbi_write_func : Type := ptr -> list byte -> Z -> M unit.

Definition stbi_write_png_to_func (func : stbi_write_func) (context : ptr)
    (w h comp : Z) (data : ptr) (stride_bytes : Z) : M Z :=
  emit (EvWritePng w h comp data stride_bytes) ;;
  pixels ← read_block data;
  let '(chunks, result) := png_writer W w h comp pixels stride_bytes in
  for_each chunks (fun c => func context c (Z.of_nat (length c))) ;;
  ret result.

Definition stbi_write_jpg_to_func (func : stbi_write_func) (context : ptr)
    (w h comp : Z) (data : ptr) (quality : Z) : M Z :=
  emit (EvWriteJpg w h comp data quality) ;;
  pixels ← read_block data;
  let '(chunks, result) := jpg_writer W w h comp pixels quality in
  for_each chunks (fun c => func context c (Z.of_nat (length c))) ;;
  ret result.

Definition printf (msg : string) : M unit := emit (EvStdout msg).
Definition fprintf_stderr (msg : string) : M unit := emit (EvStderr msg).

(** ** webp.c *)

Definition create_buffer (size : Z) : M ptr :=
  malloc (to_size_t (size * sizeof_uint8_t)).

Definition destroy_buffer (p : ptr) : M unit := free p.

Definition get_image_bytes_from_handle (p : ptr) : M ptr := load_bytes p.
Definition get_num_bytes_from_handle (p : ptr) : M Z := load_byte_count p.

Definition release_image_handle (image_buffer : ptr) : M unit :=
  if negb (is_null image_buffer) then
    bytes ← load_bytes image_buffer;
    sb_free bytes ;;
    free image_buffer
  else ret tt.

Definition createImageBuffer : M ptr :=
  image_buffer ← malloc sizeof_ImageBuffer;
  store_byte_count image_buffer 0 ;;
  store_bytes image_buffer NULL ;;
  ret image_buffer.

Definition write_image_to_mem (context : ptr) (data : list byte) (size : Z)
  : M unit :=
  let image_buffer := context in
  bytes ← load_bytes image_buffer;
  cnt ← sb_count bytes;
  let size_of_buffer := to_int cnt in
  byte_count ← load_byte_count image_buffer;
  (if to_size_t size_of_buffer <? to_size_t (byte_count + to_size_t size) then
     sb_add (load_bytes image_buffer) (store_bytes image_buffer)
            (if size <? 128 then 128 else size) ;;
     ret tt
   else ret tt) ;;
  bytes ← load_bytes image_buffer;
  byte_count ← load_byte_count image_buffer;
  let start_ptr := ptr_add bytes byte_count in
  memcpy start_ptr data (to_size_t size) ;;
  byte_count ← load_byte_count image_buffer;
  store_byte_count image_buffer (to_size_t (byte_count + to_size_t size)).

Definition newline : string := String (Ascii.ascii_of_nat 10) EmptyString.

(** [width] and [height] are out-parameters: they come in and go out. *)
Definition decode_webp_to_rgba (webp_ptr : ptr) (size : Z) (width height : Z)
  : M (ptr * Z * Z) :=
  when (is_null webp_ptr)
    (printf "decode_webp_to_rgba() called with NULL webp_ptr") ;;
  '(ok, width, height) ← WebPGetInfo webp_ptr size width height;
  if ok =? 0 then
    fprintf_stderr ("WebPGetInfo() returned an error" +:+ newline) ;;
    ret (NULL, width, height)
  else
    '(rgba_ptr, width, height) ← WebPDecodeRGBA webp_ptr size width height;
    ret (rgba_ptr, width, height).

(** The locals [width] and [height] start out indeterminate; they are read
    only after the decoder has set them, and stand at 0 until then. *)
Definition get_png_handle_from_webp (webp_ptr : ptr) (size : Z) : M ptr :=
  '(rgba_ptr, width, height) ← decode_webp_to_rgba webp_ptr size 0 0;
  if is_null rgba_ptr then ret NULL else
  image_buffer ← createImageBuffer;
  result ← stbi_write_png_to_func write_image_to_mem image_buffer width height 4
             rgba_ptr (to_int (width * 4));
  WebPFree rgba_ptr ;;
  if result =? 0 then ret NULL else
  ret image_buffer.

Definition get_jpg_handle_from_webp (webp_ptr : ptr) (size : Z) : M ptr :=
  '(rgba_ptr, width, height) ← decode_webp_to_rgba webp_ptr size 0 0;
  if is_null rgba_ptr then ret NULL else
  image_buffer ← createImageBuffer;
  result ← stbi_write_jpg_to_func write_image_to_mem image_buffer width height 4
             rgba_ptr 100;
  WebPFree rgba_ptr ;;
  if result =? 0 then ret NULL else
  ret image_buffer.

End Shim.

(** ** Observing a run *)

(** The two transcode entry points, and what each asks of its writer. *)
Inductive format : Type := PNG | JPG.

Definition transcode (W : world) (f : format) : ptr -> Z -> M ptr :=
  match f with
  | PNG => get_png_handle_from_webp W
  | JPG => get_jpg_handle_from_webp W
  end.

Definition writer_output (W : world) (f : format) (width height : Z)
    (pixels : list byte) : list (list byte) * Z :=
  match f with
  | PNG => png_writer W width height 4 (Some <$> pixels) (to_int (width * 4))
  | JPG => jpg_writer W width height 4 (Some <$> pixels) 100
  end.

(** [sb_count(p->bytes)], the first thing [write_image_to_mem] computes. *)
Definition handle_count (p : ptr) : M Z :=
  bytes ← get_image_bytes_from_handle p;
  sb_count bytes.

(** Appending chunks one after the other, each with its own length. *)
Definition write_chunks (W : world) (p : ptr) (chunks : list (list byte)) : M unit :=
  for_each chunks (fun c => write_image_to_mem W p c (Z.of_nat (length c))).

Definition total_size (chunks : list (list byte)) : Z :=
  Z.of_nat (length (concat chunks)).

(** Every count the appends compute fits an [int]: the final size plus the
    growth step [max(size, 128)] of each chunk stays within [INT_MAX]. *)
Definition counts_fit (final : Z) (chunks : list (list byte)) : bool :=
  forallb (fun c => final + Z.max (Z.of_nat (length c)) 128 <=? INT_MAX) chunks.

Definition chunks_fit (chunks : list (list byte)) : bool :=
  counts_fit (total_size chunks) chunks.

(** The element bytes from a pointer to the end of its block. *)
Definition elems_at (h : gmap N object) (a : ptr) : option (list (option byte)) :=
  match a with
  | Ptr b off =>
      match h !! b with
      | Some (Stretchy _ _ d) =>
          if sb_header <=? off then Some (drop (Z.to_nat (off - sb_header)) d)
          else None
      | Some (Raw d) => if 0 <=? off then Some (drop (Z.to_nat off) d) else None
      | _ => None
      end
  | _ => None
  end.


Fixpoint all_init (d : list (option byte)) : option (list byte) :=
  match d with
  | [] => Some []
  | Some x :: d' => match all_init d' with Some l => Some (x :: l) | None => None end
  | None :: _ => None
  end.

(** Reading [k] bytes at a pointer; [None] when they are not all there
    and initialised. *)
Definition read_bytes (h : gmap N object) (a : ptr) (k : Z) : option (list byte) :=
  if k =? 0 then Some [] else
  match elems_at h a with
  | Some d => if k <=? Z.of_nat (length d) then all_init (take (Z.to_nat k) d)
              else None
  | None => None
  end.

(** The blocks a handle owns: its own storage and its stretchy block. *)
Definition owned_blocks (h : gmap N object) (p : ptr) : gset N :=
  match p with
  | Ptr ib _ =>
      {[ib]} ∪ match h !! ib with
               | Some (Image _ (Some (Ptr sb _))) => {[sb]}
               | _ => ∅
               end
  | _ => ∅
  end.

(** A handle in working order: a live [ImageBuffer] whose [bytes] is null
    with nothing counted, or a stretchy array whose header agrees with its
    block and covers [byte_count]. *)
Definition buffer_ok (h : gmap N object) (p : ptr) : bool :=
  match p with
  | Ptr ib off =>
      (off =? 0) &&
      match h !! ib with
      | Some (Image (Some bc) (Some a)) =>
          match a with
          | NULL => bc =? 0
          | Ptr sb off' =>
              (off' =? sb_header) &&
              match h !! sb with
              | Some (Stretchy (Some m) (Some n) d) =>
                  (Z.of_nat (length d) =? m) && (0 <=? bc) && (bc <=? n)
                  && (n <=? m) && (m <=? INT_MAX)
              | _ => false
              end
          | Wild _ => false
          end
      | _ => false
      end
  | _ => false
  end.

(** The same, with every part named. *)
Record buffer_at (h : gmap N object) (ib : N) (bc n m : Z) (a : ptr)
    (d : list (option byte)) : Prop := {
  ba_handle : h !! ib = Some (Image (Some bc) (Some a));
  ba_array : match a with
             | NULL => bc = 0 /\ n = 0 /\ m = 0 /\ d = []
             | Ptr sb off =>
                 off = sb_header /\ h !! sb = Some (Stretchy (Some m) (Some n) d)
             | Wild _ => False
             end;
  ba_length : Z.of_nat (length d) = m;
  ba_bounds : 0 <= bc <= n /\ n <= m <= INT_MAX
}.

(** Blocks outside the handle at [ib] keep their contents and stay outside. *)
Definition owns (h : gmap N object) (ib b : N) : Prop :=
  b = ib \/ exists bc off, h !! ib = Some (Image bc (Some (Ptr b off))).

Definition frame (h h' : gmap N object) (ib : N) : Prop :=
  forall b, is_Some (h !! b) -> ~ owns h ib b ->
            h' !! b = h !! b /\ ~ owns h' ib b.

(** The shim's own allocations are always served. *)
Definition never_fails (W : world) : Prop :=
  forall h k, malloc_ok W h k = true.

Definition is_alloc_event (e : event) : bool :=
  match e with
  | EvMalloc _ _ | EvRealloc _ _ _ => true
  | _ => false
  end.

Definition null_diagnostic : event :=
  EvStdout "decode_webp_to_rgba() called with NULL webp_ptr".

(** How a run may change the heap around the handle at [ib]: blocks outside
    the handle keep their contents, blocks the handle gave up are freed, and
    blocks it took on were free before. *)
Definition moved (h h' : gmap N object) (ib : N) : Prop :=
  (forall b, ~ owns h ib b -> ~ owns h' ib b -> h' !! b = h !! b)
  /\ (forall b, owns h ib b -> ~ owns h' ib b -> h' !! b = None)
  /\ (forall b, owns h' ib b -> ~ owns h ib b -> h !! b = None).

(** A computation that, whenever it returns, has appended to the log only
    events satisfying [P]. *)
Definition logs_only (P : event -> bool) {A} (c : M A) : Prop :=
  forall s a s', c s = Some (a, s') ->
    exists l', st_log s' = st_log s ++ l' /\ forallb P l' = true.

(** The one call a transcode operation makes to its writer. *)
Definition writer_call (f : format) (w ht : Z) (data : ptr) : event :=
  match f with
  | PNG => EvWritePng w ht 4 data (to_int (w * 4))
  | JPG => EvWriteJpg w ht 4 data 100
  end.

(** What [decode_webp_to_rgba] logs up to and including its first call. *)
Definition decode_log (p : ptr) (size : Z) : list event :=
  (if is_null p then [null_diagnostic] else []) ++ [EvWebPGetInfo p size].

(** ** Concrete worlds and runs *)

Definition bytes_of (l : list Z) : list byte :=
  (fun z => default x00 (Byte.of_N (Z.to_N z))) <$> l.

(** Allocation always succeeds, the decoder sees a 1x1 red image, the PNG
    writer hands over two chunks and the JPEG writer three. *)
Definition world_ok : world := {|
  malloc_ok := fun _ _ => true;
  webp_get_info := fun _ _ _ => Some (1, 1);
  webp_decode_rgba := fun _ _ _ => Some (1, 1, bytes_of [255; 0; 0; 255]);
  png_writer := fun _ _ _ _ _ => ([bytes_of [137; 80; 78]; bytes_of [71]], 1);
  jpg_writer := fun _ _ _ _ _ => ([bytes_of [255]; bytes_of [216]; bytes_of [255]], 1)
|}.

(** As [world_ok], but both writers give up before writing anything, as
    [stbi_write_png_to_func] does when its own buffer cannot be had. *)
Definition world_encode_fails : world := {|
  malloc_ok := fun _ _ => true;
  webp_get_info := fun _ _ _ => Some (1, 1);
  webp_decode_rgba := fun _ _ _ => Some (1, 1, bytes_of [255; 0; 0; 255]);
  png_writer := fun _ _ _ _ _ => ([], 0);
  jpg_writer := fun _ _ _ _ _ => ([], 0)
|}.

(** The decoder rejects whatever it is shown. *)
Definition world_bad_input : world := {|
  malloc_ok := fun _ _ => true;
  webp_get_info := fun _ _ _ => None;
  webp_decode_rgba := fun _ _ _ => None;
  png_writer := fun _ _ _ _ _ => ([], 0);
  jpg_writer := fun _ _ _ _ _ => ([], 0)
|}.

Definition s_empty : state := State ∅ [].

(** A caller's input buffer of ten bytes at block 7. *)
Definition s_input : state := State {[ 7%N := Raw (uninit 10) ]} [].

(** As [world_ok], but the allocator refuses every request. *)
Definition world_no_memory : world := {|
  malloc_ok := fun _ _ => false;
  webp_get_info := fun _ _ _ => Some (1, 1);
  webp_decode_rgba := fun _ _ _ => Some (1, 1, bytes_of [255; 0; 0; 255]);
  png_writer := fun _ _ _ _ _ => ([bytes_of [137; 80; 78]; bytes_of [71]], 1);
  jpg_writer := fun _ _ _ _ _ => ([bytes_of [255]; bytes_of [216]; bytes_of [255]], 1)
|}.

(** A heap with one handle that has taken one byte of a 128-byte array. *)
Definition s_with_handle : state :=
  State {[ 1%N := Image (Some 1) (Some (Ptr 2 8));
           2%N := Stretchy (Some 128) (Some 128)
                    (Some x2a :: replicate 127 None) ]} [].



(** * Running the code *)

(** ** Integer conversions *)

Lemma to_int_id z : - 2147483648 <= z <= INT_MAX -> to_int z = z.
Proof.
  unfold to_int, INT_MAX. intros Hz.
  rewrite Z.mod_small by lia. lia.
Qed.

Lemma to_size_t_id z : 0 <= z <= SIZE_MAX -> to_size_t z = z.
Proof. unfold to_size_t, SIZE_MAX. intros Hz. apply Z.mod_small. lia. Qed.

Lemma to_int_range z : - 2147483648 <= to_int z <= INT_MAX.
Proof.
  unfold to_int, INT_MAX.
  pose proof (Z.mod_pos_bound (z + 2147483648) 4294967296). lia.
Qed.

Lemma to_size_t_range z : 0 <= to_size_t z <= SIZE_MAX.
Proof.
  unfold to_size_t, SIZE_MAX.
  pose proof (Z.mod_pos_bound z 4294967296). lia.
Qed.

(** ** One step at a time *)

Lemma bind_run {A B} (c : M A) (k : A -> M B) s :
  (c ≫= k) s = match c s with Some (a, s') => k a s' | None => None end.
Proof. reflexivity. Qed.

Lemma bind_run_some {A B} (c : M A) (k : A -> M B) s a s' :
  c s = Some (a, s') -> (c ≫= k) s = k a s'.
Proof. intros H. rewrite bind_run, H. reflexivity. Qed.

Lemma bind_run_none {A B} (c : M A) (k : A -> M B) s :
  c s = None -> (c ≫= k) s = None.
Proof. intros H. rewrite bind_run, H. reflexivity. Qed.

Section Steps.

Variables (h : gmap N object) (l : list event).

Lemma object_at_run b o :
  h !! b = Some o -> object_at (Ptr b 0) (State h l) = Some ((b, o), State h l).
Proof.
  intros H. unfold object_at. rewrite bind_run. cbn. rewrite H. reflexivity.
Qed.

Lemma object_at_null : object_at NULL (State h l) = None.
Proof. reflexivity. Qed.

Lemma object_at_dead b off : h !! b = None -> object_at (Ptr b off) (State h l) = None.
Proof.
  intros H. unfold object_at. rewrite bind_run. cbn. rewrite H. reflexivity.
Qed.

Lemma load_byte_count_run b v bs :
  h !! b = Some (Image (Some v) bs) ->
  load_byte_count (Ptr b 0) (State h l) = Some (v, State h l).
Proof.
  intros H. unfold load_byte_count.
  rewrite (bind_run_some _ _ _ _ _ (object_at_run _ _ H)). reflexivity.
Qed.

Lemma load_bytes_run b bc v :
  h !! b = Some (Image bc (Some v)) ->
  load_bytes (Ptr b 0) (State h l) = Some (v, State h l).
Proof.
  intros H. unfold load_bytes.
  rewrite (bind_run_some _ _ _ _ _ (object_at_run _ _ H)). reflexivity.
Qed.

Lemma store_byte_count_run b bc bs v :
  h !! b = Some (Image bc bs) ->
  store_byte_count (Ptr b 0) v (State h l)
  = Some (tt, State (<[b := Image (Some v) bs]> h) l).
Proof.
  intros H. unfold store_byte_count.
  rewrite (bind_run_some _ _ _ _ _ (object_at_run _ _ H)). reflexivity.
Qed.

Lemma store_bytes_run b bc bs v :
  h !! b = Some (Image bc bs) ->
  store_bytes (Ptr b 0) v (State h l)
  = Some (tt, State (<[b := Image bc (Some v)]> h) l).
Proof.
  intros H. unfold store_bytes.
  rewrite (bind_run_some _ _ _ _ _ (object_at_run _ _ H)). reflexivity.
Qed.

Lemma store_byte_count_fresh b d v :
  h !! b = Some (Raw d) -> Z.of_nat (length d) = sizeof_ImageBuffer ->
  store_byte_count (Ptr b 0) v (State h l)
  = Some (tt, State (<[b := Image (Some v) None]> h) l).
Proof.
  intros H Hd. unfold store_byte_count.
  rewrite (bind_run_some _ _ _ _ _ (object_at_run _ _ H)).
  rewrite Hd. reflexivity.
Qed.

Lemma load_int_0 b m n d :
  h !! b = Some (Stretchy (Some m) n d) ->
  load_int (Ptr b 0) 0 (State h l) = Some (m, State h l).
Proof.
  intros H. unfold load_int.
  rewrite (bind_run_some _ _ _ _ _ (object_at_run _ _ H)). reflexivity.
Qed.

Lemma load_int_1 b m n d :
  h !! b = Some (Stretchy m (Some n) d) ->
  load_int (Ptr b 0) 1 (State h l) = Some (n, State h l).
Proof.
  intros H. unfold load_int.
  rewrite (bind_run_some _ _ _ _ _ (object_at_run _ _ H)). reflexivity.
Qed.

Lemma store_int_0 b m n d v :
  h !! b = Some (Stretchy m n d) ->
  store_int (Ptr b 0) 0 v (State h l)
  = Some (tt, State (<[b := Stretchy (Some v) n d]> h) l).
Proof.
  intros H. unfold store_int.
  rewrite (bind_run_some _ _ _ _ _ (object_at_run _ _ H)). reflexivity.
Qed.

Lemma store_int_1 b m n d v :
  h !! b = Some (Stretchy m n d) ->
  store_int (Ptr b 0) 1 v (State h l)
  = Some (tt, State (<[b := Stretchy m (Some v) d]> h) l).
Proof.
  intros H. unfold store_int.
  rewrite (bind_run_some _ _ _ _ _ (object_at_run _ _ H)). reflexivity.
Qed.

Lemma store_int_0_fresh b d v :
  h !! b = Some (Raw d) -> sb_header <= Z.of_nat (length d) ->
  store_int (Ptr b 0) 0 v (State h l)
  = Some (tt, State (<[b := Stretchy (Some v) None (drop (Z.to_nat sb_header) d)]> h) l).
Proof.
  intros H Hd. unfold store_int.
  rewrite (bind_run_some _ _ _ _ _ (object_at_run _ _ H)).
  apply Z.leb_le in Hd. rewrite Hd. reflexivity.
Qed.

Lemma store_int_1_fresh b d v :
  h !! b = Some (Raw d) -> sb_header <= Z.of_nat (length d) ->
  store_int (Ptr b 0) 1 v (State h l)
  = Some (tt, State (<[b := Stretchy None (Some v) (drop (Z.to_nat sb_header) d)]> h) l).
Proof.
  intros H Hd. unfold store_int.
  rewrite (bind_run_some _ _ _ _ _ (object_at_run _ _ H)).
  apply Z.leb_le in Hd. rewrite Hd. reflexivity.
Qed.

Lemma memcpy_zero dst src : memcpy dst src 0 (State h l) = Some (tt, State h l).
Proof. reflexivity. Qed.

Lemma memcpy_stretchy b off m c d src n :
  h !! b = Some (Stretchy m c d) ->
  0 < n -> sb_header <= off ->
  off - sb_header + n <= Z.of_nat (length d) ->
  n <= Z.of_nat (length src) ->
  memcpy (Ptr b off) src n (State h l)
  = Some (tt, State (<[b := Stretchy m c
                            (write_bytes (off - sb_header) (take (Z.to_nat n) src) d)]> h) l).
Proof.
  intros H Hn Hoff Hd Hs. unfold memcpy.
  destruct (Z.eqb_spec n 0) as [->|_]; [lia|].
  rewrite bind_run. cbn [get_heap st_heap]. rewrite H.
  unfold in_range.
  repeat match goal with
  | |- context [?a <=? ?b] => destruct (Z.leb_spec a b); [|lia]
  end.
  reflexivity.
Qed.

Lemma memcpy_outside b off m c d src n :
  h !! b = Some (Stretchy m c d) ->
  0 < n -> Z.of_nat (length d) < off - sb_header + n ->
  memcpy (Ptr b off) src n (State h l) = None.
Proof.
  intros H Hn Hd. unfold memcpy.
  destruct (Z.eqb_spec n 0) as [->|_]; [lia|].
  rewrite bind_run. cbn [get_heap st_heap]. rewrite H.
  unfold in_range at 1.
  destruct (Z.leb_spec (off - sb_header + n) (Z.of_nat (length d))); [lia|].
  rewrite andb_false_r. reflexivity.
Qed.

Lemma free_run b o :
  h !! b = Some o ->
  free (Ptr b 0) (State h l) = Some (tt, State (delete b h) (l ++ [EvFree (Ptr b 0)])).
Proof.
  intros H. unfold free, free_block. cbn [is_null].
  rewrite !bind_run, (object_at_run _ _ H). reflexivity.
Qed.

Lemma free_null : free NULL (State h l) = Some (tt, State h (l ++ [EvFree NULL])).
Proof. reflexivity. Qed.

Lemma alloc_block_run o :
  alloc_block o (State h l)
  = Some (Ptr (fresh_block h) 0, State (<[fresh_block h := o]> h) l).
Proof. reflexivity. Qed.

Lemma fresh_block_dead : h !! fresh_block h = None.
Proof. apply not_elem_of_dom. unfold fresh_block. apply is_fresh. Qed.

End Steps.

(** ** Tactics for running code *)

Ltac neq := first [assumption | congruence | (apply not_eq_sym; assumption)].

Ltac lk :=
  cbn [st_heap];
  repeat first
    [ rewrite lookup_insert_eq
    | rewrite lookup_insert_ne by neq
    | rewrite lookup_delete_ne by neq ];
  first [reflexivity | eassumption].

Ltac prim :=
  first
    [ erewrite load_bytes_run by lk
    | erewrite load_byte_count_run by lk
    | erewrite store_bytes_run by lk
    | erewrite store_byte_count_run by lk
    | erewrite load_int_0 by lk
    | erewrite load_int_1 by lk
    | erewrite store_int_0 by lk
    | erewrite store_int_1 by lk ].

Lemma stb__sbraw_elems b : stb__sbraw (Ptr b sb_header) = Ptr b 0.
Proof. reflexivity. Qed.

Ltac norm :=
  repeat (progress (rewrite ?bind_run, ?stb__sbraw_elems; cbv beta iota;
                    cbn [ret when is_null])).

Ltac step := norm; prim; norm.

Ltac consts :=
  unfold sb_header, sizeof_int, sizeof_uint8_t, sizeof_ImageBuffer, INT_MAX,
    SIZE_MAX in *.

Lemma length_uninit n : 0 <= n -> Z.of_nat (length (uninit n)) = n.
Proof. intros. unfold uninit. rewrite length_replicate. lia. Qed.

Lemma drop_uninit k n : drop k (uninit n) = uninit (n - Z.of_nat k).
Proof. unfold uninit. rewrite drop_replicate. f_equal. lia. Qed.

Lemma resize_grow (d : list (option byte)) k :
  Z.of_nat (length d) <= k ->
  resize (Z.to_nat k) None d = d ++ uninit (k - Z.of_nat (length d)).
Proof.
  intros H. unfold uninit. rewrite resize_ge by lia. do 2 f_equal. lia.
Qed.

(** ** Allocation and the stretchy buffer *)

Section Buffer.

Variable W : world.
Hypothesis HW : never_fails W.

Lemma malloc_run h l size :
  malloc W size (State h l)
  = Some (Ptr (fresh_block h) 0,
          State (<[fresh_block h := Raw (uninit size)]> h)
                (l ++ [EvMalloc size (Ptr (fresh_block h) 0)])).
Proof.
  unfold malloc. rewrite bind_run. cbn [get_heap st_heap]. rewrite HW.
  reflexivity.
Qed.

Lemma realloc_run h l b o size :
  h !! b = Some o ->
  realloc W (Ptr b 0) size (State h l)
  = Some (Ptr (fresh_block (delete b h)) 0,
          State (<[fresh_block (delete b h) := resize_object o size]> (delete b h))
                (l ++ [EvRealloc (Ptr b 0) size (Ptr (fresh_block (delete b h)) 0)])).
Proof.
  intros H. unfold realloc. cbn [is_null].
  rewrite (bind_run_some _ _ _ _ _ (object_at_run _ _ _ _ H)).
  rewrite bind_run. cbn [get_heap st_heap]. rewrite HW. reflexivity.
Qed.

(** Growing from nothing: a fresh block of [inc] elements, none counted. *)
Lemma stb__sbgrowf_null h l inc :
  0 <= inc <= INT_MAX ->
  exists l', stb__sbgrowf W NULL inc sizeof_uint8_t (State h l)
   = Some (Ptr (fresh_block h) sb_header,
           State (<[fresh_block h := Stretchy (Some inc) (Some 0) (uninit inc)]> h)
                 (l ++ l')).
Proof.
  intros Hinc. unfold stb__sbgrowf, sb_count. norm.
  rewrite Z.add_0_l, (to_int_id inc) by (consts; lia).
  destruct (Z.gtb_spec 0 inc); [lia|].
  unfold sizeof_uint8_t. rewrite Z.mul_1_l, (to_int_id inc) by (consts; lia).
  rewrite to_size_t_id by (consts; lia).
  unfold realloc. norm. rewrite malloc_run. norm.
  erewrite store_int_1_fresh; [| lk | rewrite length_uninit; consts; lia].
  step.
  eexists. unfold ret. cbn [ptr_add]. rewrite !insert_insert_eq, drop_uninit.
  repeat f_equal. consts. lia.
Qed.

(** Growing a live array: it moves to a block of the larger of twice the
    capacity and what is needed; header count and elements are kept. *)
Lemma stb__sbgrowf_live h l sb m n d inc :
  h !! sb = Some (Stretchy (Some m) (Some n) d) ->
  Z.of_nat (length d) = m -> 0 <= n <= m -> m <= INT_MAX ->
  0 <= inc -> m <= n + inc <= INT_MAX ->
  exists l' m',
    stb__sbgrowf W (Ptr sb sb_header) inc sizeof_uint8_t (State h l)
    = Some (Ptr (fresh_block (delete sb h)) sb_header,
            State (<[fresh_block (delete sb h) :=
                       Stretchy (Some m') (Some n) (d ++ uninit (m' - m))]> (delete sb h))
                  (l ++ l'))
    /\ n + inc <= m' <= INT_MAX.
Proof.
  intros H Hd Hn Hm Hinc Hgrow. unfold stb__sbgrowf.
  unfold stb__sbm, sb_count, stb__sbn, stb__sbraw. cbn [ptr_add].
  replace (sb_header + - sb_header) with 0 by lia.
  step. step.
  rewrite (to_int_id (n + inc)) by (consts; lia).
  set (m' := if to_int (2 * m) >? n + inc then to_int (2 * m) else n + inc).
  assert (Hm' : n + inc <= m' <= INT_MAX).
  { subst m'. pose proof (to_int_range (2 * m)).
    destruct (Z.gtb_spec (to_int (2 * m)) (n + inc)); lia. }
  unfold sizeof_uint8_t. rewrite Z.mul_1_l, (to_int_id m') by (consts; lia).
  rewrite to_size_t_id by (consts; lia).
  rewrite (realloc_run _ _ _ _ _ H).
  unfold resize_object.
  destruct (Z.leb_spec sb_header (m' + sizeof_int * 2)); [|consts; lia].
  rewrite resize_grow by (consts; lia).
  step.
  exists [EvRealloc (Ptr sb 0) (m' + sizeof_int * 2) (Ptr (fresh_block (delete sb h)) 0)], m'.
  split; [|exact Hm'].
  unfold ret. cbn [ptr_add]. rewrite insert_insert_eq.
  repeat f_equal. all: consts; lia.
Qed.

Lemma not_owns h ib bc a b :
  h !! ib = Some (Image bc (Some a)) ->
  b <> ib -> (forall off, a <> Ptr b off) -> ~ owns h ib b.
Proof.
  intros Hib Hne Ha [->|(bc' & off & H)]; [congruence|].
  rewrite Hib in H. injection H as _ ->. eapply Ha; reflexivity.
Qed.

(** [sb_add] on the [bytes] field of the handle at [ib]. *)
Lemma sb_add_handle h l ib bc n m a d inc :
  buffer_at h ib bc n m a d ->
  0 < inc -> n + inc <= INT_MAX ->
  exists h' l' m' a' d',
    sb_add W (load_bytes (Ptr ib 0)) (store_bytes (Ptr ib 0)) inc (State h l)
    = Some (ptr_add a' n, State h' (l ++ l'))
    /\ buffer_at h' ib bc (n + inc) m' a' (d ++ d')
    /\ frame h h' ib.
Proof.
  intros [Hib Ha Hd Hb] Hinc Hfit.
  unfold sb_add, stb__sbmaybegrow.
  step.
  destruct a as [|sb off|]; [| |contradiction].
  - (* first growth *)
    destruct Ha as (-> & -> & -> & ->).
    unfold stb__sbneedgrow, stb__sbgrow. step.
    destruct (stb__sbgrowf_null h l inc) as [l1 E1]; [lia|].
    rewrite E1. clear E1.
    set (sb := fresh_block h).
    assert (Hsb : h !! sb = None) by apply fresh_block_dead.
    assert (Hne : sb <> ib) by (intros ->; congruence).
    step. step.
    unfold stb__sbn.
    step. step. step. step.
    rewrite (to_int_id (0 + inc)) by (consts; lia).
    eexists _, l1, inc, (Ptr sb sb_header), (uninit inc).
    split; [unfold ret; cbn [ptr_add]; repeat f_equal; lia|].
    split.
    + constructor; [lk | split; [reflexivity|lk] | | lia].
      cbn [app]. apply length_uninit. lia.
    + intros b [o Hb'] Hown.
      assert (b <> ib) by (intros ->; apply Hown; left; reflexivity).
      assert (b <> sb) by (intros ->; congruence).
      split; [lk|].
      eapply not_owns; [lk | assumption | congruence].
  - destruct Ha as (-> & Ha).
    assert (Hne : sb <> ib) by (intros ->; congruence).
    unfold stb__sbneedgrow, stb__sbn, stb__sbm. step. step.
    rewrite (to_int_id (n + inc)) by (consts; lia).
    destruct (Z.geb_spec (n + inc) m) as [Hg|Hg].
    + (* the array moves *)
      unfold stb__sbgrow. step.
      destruct (stb__sbgrowf_live h l sb m n d inc) as (l1 & m' & E1 & Hm');
        [assumption|assumption|lia|lia|lia|lia|].
      rewrite E1. clear E1.
      set (sb' := fresh_block (delete sb h)).
      assert (Hsb' : delete sb h !! sb' = None) by apply fresh_block_dead.
      assert (Hne' : sb' <> ib).
      { intros E. rewrite E, lookup_delete_ne in Hsb' by neq. congruence. }
      step. step. step. step. step. step.
      rewrite (to_int_id (n + inc)) by (consts; lia).
      eexists _, l1, m', (Ptr sb' sb_header), (uninit (m' - m)).
      split; [unfold ret; cbn [ptr_add]; repeat f_equal; lia|].
      split.
      * constructor; [lk | split; [reflexivity|lk] | | lia].
        rewrite length_app, Nat2Z.inj_add, length_uninit; lia.
      * intros b [o Hb'] Hown.
        assert (b <> ib) by (intros ->; apply Hown; left; reflexivity).
        assert (b <> sb).
        { intros ->. apply Hown. right. eauto. }
        assert (b <> sb').
        { intros ->. rewrite lookup_delete_ne in Hsb' by neq. congruence. }
        split; [lk|].
        eapply not_owns; [lk | assumption | congruence].
    + (* room enough *)
      step. step. step. step. step.
      rewrite (to_int_id (n + inc)) by (consts; lia).
      eexists _, [], m, (Ptr sb sb_header), [].
      rewrite !app_nil_r.
      split; [unfold ret; cbn [ptr_add]; repeat f_equal; lia|].
      split.
      * constructor; [lk | split; [reflexivity|lk] | assumption | lia].
      * intros b [o Hb'] Hown.
        assert (b <> ib) by (intros ->; apply Hown; left; reflexivity).
        assert (b <> sb).
        { intros ->. apply Hown. right. eauto. }
        split; [lk|].
        eapply not_owns; [lk | assumption | congruence].
Qed.

Lemma frame_trans h1 h2 h3 ib :
  frame h1 h2 ib -> frame h2 h3 ib -> frame h1 h3 ib.
Proof.
  intros F12 F23 b Hb Hown.
  destruct (F12 b Hb Hown) as [E12 Hown2].
  destruct (F23 b) as [E23 Hown3]; [rewrite E12; exact Hb | exact Hown2 |].
  split; [congruence | exact Hown3].
Qed.

Lemma frame_local h h' ib :
  (forall b, ~ owns h ib b -> h' !! b = h !! b) ->
  (forall b, owns h' ib b -> owns h ib b) ->
  frame h h' ib.
Proof. intros Hsame Hown b _ Hb. split; [apply Hsame, Hb | intros H; apply Hb, Hown, H]. Qed.

Lemma sb_count_run h l ib bc n m a d :
  buffer_at h ib bc n m a d -> sb_count a (State h l) = Some (n, State h l).
Proof.
  intros [Hib Ha Hd Hb]. unfold sb_count, stb__sbn.
  destruct a as [|sb off|]; [| |contradiction].
  - destruct Ha as (_ & -> & _). reflexivity.
  - destruct Ha as (-> & Ha). norm. prim. reflexivity.
Qed.

Lemma length_write_bytes i (src : list byte) d :
  0 <= i -> i + Z.of_nat (length src) <= Z.of_nat (length d) ->
  length (write_bytes i src d) = length d.
Proof.
  intros Hi Hfit. unfold write_bytes.
  rewrite !length_app, length_take, length_fmap, length_drop. lia.
Qed.

Lemma take_write_bytes i (src : list byte) d :
  0 <= i -> i + Z.of_nat (length src) <= Z.of_nat (length d) ->
  take (Z.to_nat (i + Z.of_nat (length src))) (write_bytes i src d)
  = take (Z.to_nat i) d ++ (Some <$> src).
Proof.
  intros Hi Hfit. unfold write_bytes.
  rewrite app_assoc. rewrite take_app_length'; [reflexivity|].
  rewrite length_app, length_take, length_fmap. lia.
Qed.

(** One append on a handle in working order. *)
Lemma write_image_to_mem_run h l ib bc n m a d data :
  buffer_at h ib bc n m a d ->
  Z.of_nat (length data) <= INT_MAX ->
  (n < bc + Z.of_nat (length data) ->
   n + Z.max (Z.of_nat (length data)) 128 <= INT_MAX) ->
  exists h' l' n' m' a' d',
    write_image_to_mem W (Ptr ib 0) data (Z.of_nat (length data)) (State h l)
    = Some (tt, State h' (l ++ l'))
    /\ buffer_at h' ib (bc + Z.of_nat (length data)) n' m' a' d'
    /\ n' = (if n <? bc + Z.of_nat (length data)
             then n + Z.max (Z.of_nat (length data)) 128 else n)
    /\ take (Z.to_nat (bc + Z.of_nat (length data))) d'
       = take (Z.to_nat bc) d ++ (Some <$> data)
    /\ frame h h' ib.
Proof.
  set (size := Z.of_nat (length data)).
  intros B Hsize Hfit.
  assert (Hsize0 : 0 <= size) by (subst size; lia).
  pose proof B as [Hib Ha Hd Hb].
  unfold write_image_to_mem. step.
  rewrite (sb_count_run _ _ _ _ _ _ _ _ B). step.
  rewrite (to_int_id n), (to_size_t_id n), (to_size_t_id size),
    (to_size_t_id (bc + size)) by (consts; lia).
  destruct (Z.ltb_spec n (bc + size)) as [Hlt|Hge].
  - (* not enough room: grow by max(size, 128) *)
    specialize (Hfit Hlt).
    assert (Hinc : (if size <? 128 then 128 else size) = Z.max size 128).
    { destruct (Z.ltb_spec size 128); lia. }
    rewrite Hinc. norm.
    destruct (sb_add_handle h l ib bc n m a d (Z.max size 128) B)
      as (h1 & l1 & m1 & a1 & d1 & E1 & B1 & F1); [lia|lia|].
    rewrite E1. clear E1. norm.
    pose proof B1 as [Hib1 Ha1 Hd1 Hb1].
    destruct a1 as [|sb off|]; [destruct Ha1 as (_ & ? & _); lia| |contradiction].
    destruct Ha1 as (-> & Ha1).
    assert (Hne : sb <> ib) by (intros ->; congruence).
    step. step. cbn [ptr_add].
    erewrite memcpy_stretchy; [|lk|lia|lia| |lia].
    2:{ rewrite Hd1. lia. }
    norm. step. step. rewrite (to_size_t_id (bc + size)) by (consts; lia).
    replace (sb_header + bc - sb_header) with bc by lia.
    rewrite (take_ge data (Z.to_nat size)) by (subst size; lia).
    eexists _, l1, _, m1, (Ptr sb sb_header), _.
    split; [reflexivity|].
    split; [|split; [reflexivity|split]].
    + constructor; [lk | split; [reflexivity|lk] | | lia].
      rewrite length_write_bytes; [exact Hd1|lia|fold size; lia].
    + fold size. unfold size at 1. rewrite take_write_bytes by (fold size; lia).
      rewrite take_app_le by lia. reflexivity.
    + eapply frame_trans; [exact F1|].
      apply frame_local.
      * intros b Hown.
        assert (b <> ib) by (intros ->; apply Hown; left; reflexivity).
        assert (b <> sb) by (intros ->; apply Hown; right; eauto).
        lk.
      * intros b [->|(bc' & off & H')]; [left; reflexivity|].
        right. revert H'. rewrite lookup_insert_eq. intros [= <- <-]. eauto.
  - (* room enough: the array stays as it is *)
    norm. step. step.
    destruct (Z.eq_dec size 0) as [Hz|Hnz].
    + rewrite Hz, memcpy_zero. norm. step. step.
      rewrite (to_size_t_id (bc + 0)) by (consts; lia).
      eexists _, [], n, m, a, d. rewrite app_nil_r.
      split; [reflexivity|].
      assert (Hdata : data = []) by (apply length_zero_iff_nil; lia).
      split; [|split; [reflexivity|split]].
      * constructor; [lk | | assumption | lia].
        destruct a as [|sb off|]; [| |contradiction].
        -- destruct Ha as (-> & -> & -> & ->). tauto.
        -- destruct Ha as (-> & Ha).
           assert (Hne : sb <> ib) by (intros ->; congruence).
           split; [reflexivity|lk].
      * rewrite Hdata, Z.add_0_r, app_nil_r. reflexivity.
      * apply frame_local.
        -- intros b Hown.
           assert (b <> ib) by (intros ->; apply Hown; left; reflexivity).
           lk.
        -- intros b [->|(bc' & off & H')]; [left; reflexivity|].
           right. revert H'. rewrite lookup_insert_eq. intros [= _ E].
           rewrite E in Hib. eauto.
    + destruct a as [|sb off|]; [destruct Ha as (_ & ? & _); lia| |contradiction].
      destruct Ha as (-> & Ha).
      assert (Hne : sb <> ib) by (intros ->; congruence).
      cbn [ptr_add].
      erewrite memcpy_stretchy; [|lk|lia|lia| |lia].
      2:{ rewrite Hd. lia. }
      norm. step. step. rewrite (to_size_t_id (bc + size)) by (consts; lia).
      replace (sb_header + bc - sb_header) with bc by lia.
      rewrite (take_ge data (Z.to_nat size)) by (subst size; lia).
      eexists _, [], n, m, (Ptr sb sb_header), _. rewrite app_nil_r.
      split; [reflexivity|].
      split; [|split; [reflexivity|split]].
      * constructor; [lk | split; [reflexivity|lk] | | lia].
        rewrite length_write_bytes; [exact Hd|lia|fold size; lia].
      * fold size. unfold size at 1. rewrite take_write_bytes by (fold size; lia).
        reflexivity.
      * apply frame_local.
        -- intros b Hown.
           assert (b <> ib) by (intros ->; apply Hown; left; reflexivity).
           assert (b <> sb) by (intros ->; apply Hown; right; eauto).
           lk.
        -- intros b [->|(bc' & off & H')]; [left; reflexivity|].
           right. revert H'. rewrite lookup_insert_eq. intros [= <- <-]. eauto.
Qed.

Lemma total_size_cons c cs :
  total_size (c :: cs) = Z.of_nat (length c) + total_size cs.
Proof. unfold total_size. cbn [concat]. rewrite length_app. lia. Qed.

Lemma total_size_nonneg cs : 0 <= total_size cs.
Proof. unfold total_size. lia. Qed.


(** A run of appends on a handle in working order. *)
Lemma write_chunks_run final chunks : forall h l ib bc n m a d,
  buffer_at h ib bc n m a d ->
  bc + total_size chunks <= final ->
  counts_fit final chunks = true ->
  exists h' l' n' m' a' d',
    write_chunks W (Ptr ib 0) chunks (State h l) = Some (tt, State h' (l ++ l'))
    /\ buffer_at h' ib (bc + total_size chunks) n' m' a' d'
    /\ take (Z.to_nat (bc + total_size chunks)) d'
       = take (Z.to_nat bc) d ++ (Some <$> concat chunks)
    /\ frame h h' ib.
Proof.
  induction chunks as [|c cs IH]; intros h l ib bc n m a d B Hfinal Hfit.
  - exists h, [], n, m, a, d. rewrite app_nil_r.
    change (total_size []) with 0. rewrite Z.add_0_r. cbn [concat fmap list_fmap].
    rewrite app_nil_r.
    split; [reflexivity|]. split; [exact B|]. split; [reflexivity|].
    apply frame_local; auto.
  - rewrite total_size_cons in *.
    pose proof (total_size_nonneg cs) as Hcs.
    pose proof B as [_ _ _ Hb].
    cbn [counts_fit forallb] in Hfit. apply andb_prop in Hfit as [Hc Hfit].
    apply Z.leb_le in Hc.
    destruct (write_image_to_mem_run h l ib bc n m a d c B)
      as (h1 & l1 & n1 & m1 & a1 & d1 & E1 & B1 & _ & T1 & F1); [lia|lia|].
    destruct (IH h1 (l ++ l1) ib _ _ _ _ _ B1)
      as (h2 & l2 & n2 & m2 & a2 & d2 & E2 & B2 & T2 & F2); [lia|exact Hfit|].
    exists h2, (l1 ++ l2), n2, m2, a2, d2.
    split; [|split; [|split]].
    + unfold write_chunks in *. cbn [for_each]. rewrite bind_run, E1, E2.
      rewrite app_assoc. reflexivity.
    + rewrite Z.add_assoc. exact B2.
    + rewrite Z.add_assoc, T2, T1. cbn [concat]. rewrite fmap_app, app_assoc.
      reflexivity.
    + eapply frame_trans; eassumption.
Qed.


Lemma createImageBuffer_run h l :
  createImageBuffer W (State h l)
  = Some (Ptr (fresh_block h) 0,
          State (<[fresh_block h := Image (Some 0) (Some NULL)]> h)
                (l ++ [EvMalloc sizeof_ImageBuffer (Ptr (fresh_block h) 0)])).
Proof.
  unfold createImageBuffer. norm. rewrite malloc_run. norm.
  erewrite store_byte_count_fresh; [|lk|reflexivity]. step.
  unfold ret. rewrite !insert_insert_eq. reflexivity.
Qed.

Lemma buffer_at_fresh h ib :
  buffer_at (<[ib := Image (Some 0) (Some NULL)]> h) ib 0 0 0 NULL [].
Proof. constructor; [lk | tauto | reflexivity | consts; lia]. Qed.

(** What the observers see of a handle in working order. *)
Lemma buffer_at_ok h ib bc n m a d :
  buffer_at h ib bc n m a d -> buffer_ok h (Ptr ib 0) = true.
Proof.
  intros [Hib Ha Hd Hb]. unfold buffer_ok. rewrite Hib. cbn.
  destruct a as [|sb off|]; [| |contradiction].
  - destruct Ha as (-> & _). reflexivity.
  - destruct Ha as (-> & ->). rewrite Z.eqb_refl. cbn.
    repeat (apply andb_true_intro; split); lia.
Qed.

Lemma buffer_ok_at h p :
  buffer_ok h p = true ->
  exists ib bc n m a d, p = Ptr ib 0 /\ buffer_at h ib bc n m a d.
Proof.
  unfold buffer_ok. destruct p as [|ib off|]; [discriminate| |discriminate].
  destruct (Z.eqb_spec off 0) as [->|]; [|discriminate]. cbn.
  destruct (h !! ib) as [[|[bc|] [a|]|]|] eqn:Hib; try discriminate.
  destruct a as [|sb off|]; [| |discriminate].
  - intros ->%Z.eqb_eq. exists ib, 0, 0, 0, NULL, [].
    split; [reflexivity|]. constructor; [assumption|tauto|reflexivity|consts; lia].
  - destruct (Z.eqb_spec off sb_header) as [->|]; [|discriminate]. cbn.
    destruct (h !! sb) as [[|?|[m|] [n|] d]|] eqn:Hsb; try discriminate.
    intros H. repeat (apply andb_prop in H; destruct H as [H ?]).
    exists ib, bc, n, m, (Ptr sb sb_header), d.
    split; [reflexivity|]. constructor; [assumption|tauto|lia|lia].
Qed.

Lemma get_num_bytes_run h l ib bc n m a d :
  buffer_at h ib bc n m a d ->
  get_num_bytes_from_handle (Ptr ib 0) (State h l) = Some (bc, State h l).
Proof. intros [Hib _ _ _]. eapply load_byte_count_run, Hib. Qed.

Lemma get_image_bytes_run h l ib bc n m a d :
  buffer_at h ib bc n m a d ->
  get_image_bytes_from_handle (Ptr ib 0) (State h l) = Some (a, State h l).
Proof. intros [Hib _ _ _]. eapply load_bytes_run, Hib. Qed.

Lemma handle_count_run h l ib bc n m a d :
  buffer_at h ib bc n m a d ->
  handle_count (Ptr ib 0) (State h l) = Some (n, State h l).
Proof.
  intros B. unfold handle_count.
  rewrite bind_run, (get_image_bytes_run _ _ _ _ _ _ _ _ B).
  eapply sb_count_run, B.
Qed.


Lemma all_init_Some (l : list byte) : all_init (Some <$> l) = Some l.
Proof. induction l as [|x l IH]; [reflexivity|]. cbn. rewrite IH. reflexivity. Qed.

Lemma read_bytes_buffer h ib bc n m a d content :
  buffer_at h ib bc n m a d ->
  take (Z.to_nat bc) d = Some <$> content ->
  read_bytes h a bc = Some content.
Proof.
  intros [Hib Ha Hd Hb] Hc. unfold read_bytes.
  destruct (Z.eqb_spec bc 0) as [->|Hnz].
  - destruct content; [reflexivity|]. rewrite take_0 in Hc. discriminate.
  - unfold elems_at.
    destruct a as [|sb off|]; [destruct Ha; lia| |contradiction].
    destruct Ha as (-> & ->). rewrite Z.leb_refl, Z.sub_diag.
    change (Z.to_nat 0) with 0%nat. rewrite drop_0.
    destruct (Z.leb_spec bc (Z.of_nat (length d))); [|lia].
    rewrite Hc. apply all_init_Some.
Qed.

End Buffer.

(** ** The transcode pipeline *)

Section Pipeline.

Variable W : world.

Lemma decode_webp_to_rgba_run h l p size w0 h0 :
  decode_webp_to_rgba W p size w0 h0 (State h l)
  = match webp_get_info W h p size with
    | None =>
        Some ((NULL, w0, h0),
              State h (l ++ decode_log p size
                         ++ [EvStderr ("WebPGetInfo() returned an error" +:+ newline)]))
    | Some (w, ht) =>
        match webp_decode_rgba W h p size with
        | None =>
            Some ((NULL, w, ht),
                  State h (l ++ decode_log p size ++ [EvWebPDecodeRGBA p size]))
        | Some (w', ht', pixels) =>
            Some ((Ptr (fresh_block h) 0, w', ht'),
                  State (<[fresh_block h := Raw (Some <$> pixels)]> h)
                        (l ++ decode_log p size ++ [EvWebPDecodeRGBA p size]))
        end
    end.
Proof.
  cbv beta iota zeta delta
    [decode_webp_to_rgba decode_log WebPGetInfo WebPDecodeRGBA printf fprintf_stderr
     null_diagnostic mbind M_bind bind emit get_heap put_heap alloc_block ret when
     st_heap st_log].
  destruct (is_null p);
    (destruct (webp_get_info W h p size) as [[w ht]|]; cbv beta iota zeta;
     [ change (1 =? 0) with false; cbv beta iota zeta;
       destruct (webp_decode_rgba W h p size) as [[[w' ht'] px]|]; cbv beta iota zeta
     | change (0 =? 0) with true; cbv beta iota zeta ]);
    rewrite <- ?app_assoc; reflexivity.
Qed.

Lemma transcode_info_fails f h l p size :
  webp_get_info W h p size = None ->
  transcode W f p size (State h l)
  = Some (NULL, State h (l ++ decode_log p size
                           ++ [EvStderr ("WebPGetInfo() returned an error" +:+ newline)])).
Proof.
  intros E. destruct f; unfold transcode, get_png_handle_from_webp, get_jpg_handle_from_webp.
  all: rewrite bind_run, decode_webp_to_rgba_run, E; reflexivity.
Qed.

Lemma transcode_decode_fails f h l p size w ht :
  webp_get_info W h p size = Some (w, ht) ->
  webp_decode_rgba W h p size = None ->
  transcode W f p size (State h l)
  = Some (NULL, State h (l ++ decode_log p size ++ [EvWebPDecodeRGBA p size])).
Proof.
  intros E1 E2.
  destruct f; unfold transcode, get_png_handle_from_webp, get_jpg_handle_from_webp.
  all: rewrite bind_run, decode_webp_to_rgba_run, E1, E2; reflexivity.
Qed.

Lemma read_block_run h l b d :
  h !! b = Some (Raw d) -> read_block (Ptr b 0) (State h l) = Some (d, State h l).
Proof.
  intros H. unfold read_block.
  rewrite (bind_run_some _ _ _ _ _ (object_at_run _ _ _ _ H)). reflexivity.
Qed.

Lemma WebPFree_run h l b o :
  h !! b = Some o ->
  WebPFree (Ptr b 0) (State h l)
  = Some (tt, State (delete b h) (l ++ [EvWebPFree (Ptr b 0)])).
Proof.
  intros H. unfold WebPFree, free_block. cbn [is_null].
  rewrite !bind_run, (object_at_run _ _ _ _ H). reflexivity.
Qed.

Lemma buffer_at_delete h ib bc n m a d b :
  buffer_at h ib bc n m a d -> ~ owns h ib b ->
  buffer_at (delete b h) ib bc n m a d.
Proof.
  intros [Hib Ha Hd Hb] Hown.
  assert (b <> ib) by (intros ->; apply Hown; left; reflexivity).
  constructor; [lk| |assumption|assumption].
  destruct a as [|sb off|]; [assumption| |assumption].
  destruct Ha as (-> & Ha).
  assert (b <> sb) by (intros ->; apply Hown; right; eauto).
  split; [reflexivity|lk].
Qed.

Hypothesis HW : never_fails W.

(** The whole pipeline once both decoder calls succeed. *)
Lemma transcode_decoded f h l p size w0 h0 w ht pixels chunks result :
  webp_get_info W h p size = Some (w0, h0) ->
  webp_decode_rgba W h p size = Some (w, ht, pixels) ->
  writer_output W f w ht pixels = (chunks, result) ->
  chunks_fit chunks = true ->
  let rgba := fresh_block h in
  let ib := fresh_block (<[rgba := Raw (Some <$> pixels)]> h) in
  exists h' l' n m a d,
    transcode W f p size (State h l)
    = Some (if result =? 0 then NULL else Ptr ib 0,
            State h' (l ++ decode_log p size
                        ++ EvWebPDecodeRGBA p size
                        :: EvMalloc sizeof_ImageBuffer (Ptr ib 0)
                        :: l' ++ [EvWebPFree (Ptr rgba 0)]))
    /\ buffer_at h' ib (total_size chunks) n m a d
    /\ take (Z.to_nat (total_size chunks)) d = Some <$> concat chunks
    /\ h !! rgba = None /\ h' !! rgba = None
    /\ h !! ib = None /\ ib <> rgba
    /\ (forall b, is_Some (h !! b) -> h' !! b = h !! b).
Proof.
  intros E1 E2 Ew Hfit rgba ib.
  assert (Hrgba : h !! rgba = None) by apply fresh_block_dead.
  assert (Hib : <[rgba := Raw (Some <$> pixels)]> h !! ib = None)
    by apply fresh_block_dead.
  assert (Hne : ib <> rgba).
  { intros E. rewrite E, lookup_insert_eq in Hib. discriminate. }
  assert (Hib0 : h !! ib = None) by (rewrite lookup_insert_ne in Hib by neq; exact Hib).
  set (h1 := <[ib := Image (Some 0) (Some NULL)]> (<[rgba := Raw (Some <$> pixels)]> h)).
  assert (B1 : buffer_at h1 ib 0 0 0 NULL []) by apply buffer_at_fresh.
  assert (Hr1 : h1 !! rgba = Some (Raw (Some <$> pixels))) by (subst h1; lk).
  assert (Hown1 : ~ owns h1 ib rgba).
  { eapply not_owns; [subst h1; lk|neq|discriminate]. }
  set (ev := match f with
             | PNG => EvWritePng w ht 4 (Ptr rgba 0) (to_int (w * 4))
             | JPG => EvWriteJpg w ht 4 (Ptr rgba 0) 100
             end).
  set (l1 := (l ++ decode_log p size ++ [EvWebPDecodeRGBA p size])
               ++ [EvMalloc sizeof_ImageBuffer (Ptr ib 0)]).
  destruct (write_chunks_run W HW (total_size chunks) chunks h1 (l1 ++ [ev]) ib 0 0 0
              NULL [] B1)
    as (h2 & l2 & n2 & m2 & a2 & d2 & E & B2 & T2 & F2); [lia|exact Hfit|].
  rewrite Z.add_0_l in *. rewrite take_0, app_nil_l in T2.
  destruct (F2 rgba) as [Hr2 Hown2]; [eauto|exact Hown1|].
  rewrite Hr1 in Hr2.
  exists (delete rgba h2), (ev :: l2), n2, m2, a2, d2.
  split; [|split; [|split; [|split; [|split; [|split; [|split]]]]]].
  - unfold write_chunks in E.
    destruct f; unfold transcode, get_png_handle_from_webp, get_jpg_handle_from_webp.
    all: rewrite bind_run, decode_webp_to_rgba_run, E1, E2; norm.
    all: rewrite createImageBuffer_run by assumption; norm.
    all: unfold stbi_write_png_to_func, stbi_write_jpg_to_func.
    all: unfold emit at 1; norm; cbn [st_heap st_log].
    all: erewrite read_block_run by (fold rgba; fold ib; exact Hr1); norm.
    all: unfold writer_output in Ew; rewrite Ew.
    all: fold rgba; fold ib; fold h1; fold l1; norm.
    all: subst ev; rewrite E; norm.
    all: rewrite (WebPFree_run _ _ _ _ Hr2); norm.
    all: subst l1; rewrite <- !app_assoc; cbn [app].
    all: destruct (result =? 0); reflexivity.
  - apply buffer_at_delete; assumption.
  - exact T2.
  - exact Hrgba.
  - apply lookup_delete_eq.
  - exact Hib0.
  - exact Hne.
  - intros b Hb.
    assert (b <> rgba) by (intros ->; destruct Hb; congruence).
    assert (b <> ib) by (intros ->; destruct Hb; congruence).
    destruct (F2 b) as [Hb2 _].
    + subst h1. rewrite !lookup_insert_ne by neq. exact Hb.
    + eapply not_owns; [subst h1; lk|neq|discriminate].
    + rewrite lookup_delete_ne by neq. rewrite Hb2. subst h1. lk.
Qed.

End Pipeline.

(** ** Small facts the claims use *)


Lemma release_null s : release_image_handle NULL s = Some (tt, s).
Proof. reflexivity. Qed.

Lemma owned_blocks_live h ib bc n m a d b :
  buffer_at h ib bc n m a d -> b ∈ owned_blocks h (Ptr ib 0) -> is_Some (h !! b).
Proof.
  intros [Hib Ha Hd Hb]. unfold owned_blocks. rewrite Hib.
  destruct a as [|sb off|]; [| |contradiction].
  - intros [->%elem_of_singleton|[]%elem_of_empty]%elem_of_union. eauto.
  - destruct Ha as (-> & Ha).
    intros [->%elem_of_singleton| ->%elem_of_singleton]%elem_of_union; eauto.
Qed.

(** * The claims *)

(** C1, as the code has it. When decoding succeeds and the writer reports
    failure, the transcode operations return null and the [ImageBuffer]
    that [createImageBuffer] made during the call is still allocated, in
    working order, holding whatever the writer had appended. *)
Theorem encode_failure_keeps_handle W f h l p size w0 h0 w ht pixels chunks :
  never_fails W ->
  webp_get_info W h p size = Some (w0, h0) ->
  webp_decode_rgba W h p size = Some (w, ht, pixels) ->
  writer_output W f w ht pixels = (chunks, 0) ->
  chunks_fit chunks = true ->
  exists ib s',
    transcode W f p size (State h l) = Some (NULL, s')
    /\ h !! ib = None
    /\ is_Some (st_heap s' !! ib)
    /\ buffer_ok (st_heap s') (Ptr ib 0) = true
    /\ get_num_bytes_from_handle (Ptr ib 0) s' = Some (total_size chunks, s')
    /\ In (EvMalloc sizeof_ImageBuffer (Ptr ib 0)) (st_log s').
Proof.
  intros HW E1 E2 Ew Hfit.
  destruct (transcode_decoded W HW f h l p size w0 h0 w ht pixels chunks 0
              E1 E2 Ew Hfit)
    as (h' & l' & n & m & a & d & E & B & _ & _ & _ & Hib & _ & _).
  eexists _, _. split; [exact E|].
  split; [exact Hib|].
  cbn [st_heap st_log].
  split; [destruct B as [Hb _ _ _]; eauto|].
  split; [eapply buffer_at_ok, B|].
  split; [eapply get_num_bytes_run, B|].
  apply in_or_app. right. apply in_or_app. right. right. left. reflexivity.
Qed.

Lemma encode_failure_keeps_handle_witness :
  exists ib s',
    transcode world_encode_fails PNG (Ptr 7 0) 10 s_input = Some (NULL, s')
    /\ st_heap s_input !! ib = None
    /\ is_Some (st_heap s' !! ib)
    /\ buffer_ok (st_heap s') (Ptr ib 0) = true
    /\ get_num_bytes_from_handle (Ptr ib 0) s' = Some (0, s')
    /\ In (EvMalloc sizeof_ImageBuffer (Ptr ib 0)) (st_log s').
Proof.
  apply (encode_failure_keeps_handle world_encode_fails PNG (st_heap s_input) []
           (Ptr 7 0) 10 1 1 1 1 (bytes_of [255; 0; 0; 255]) []).
  - intros ? ?. reflexivity.
  - reflexivity.
  - reflexivity.
  - reflexivity.
  - reflexivity.
Defined.





(** C4, as the code has it. [create_buffer] hands its size to [malloc] and
    returns what [malloc] returns, with no case for zero: if the allocator
    serves the request the result is a non-null pointer to a fresh block of
    exactly that many uninitialised bytes, otherwise it is null. *)
Theorem create_buffer_is_malloc W h l size :
  let n := to_size_t (size * sizeof_uint8_t) in
  create_buffer W size (State h l)
  = (if malloc_ok W h n
     then Some (Ptr (fresh_block h) 0,
                State (<[fresh_block h := Raw (uninit n)]> h)
                      (l ++ [EvMalloc n (Ptr (fresh_block h) 0)]))
     else Some (NULL, State h (l ++ [EvMalloc n NULL])))
  /\ h !! fresh_block h = None
  /\ Z.of_nat (length (uninit n)) = n
  /\ Forall (fun x => x = None) (uninit n)
  /\ (0 <= size <= INT_MAX -> n = size).
Proof.
  intros n. split; [|split; [|split; [|split]]].
  - unfold create_buffer, malloc. fold n. rewrite bind_run. cbn [get_heap st_heap].
    destruct (malloc_ok W h n); reflexivity.
  - apply fresh_block_dead.
  - apply length_uninit. subst n. apply to_size_t_range.
  - unfold uninit. apply Forall_replicate. reflexivity.
  - intros Hs. subst n. unfold sizeof_uint8_t. rewrite Z.mul_1_r.
    apply to_size_t_id. consts. lia.
Qed.

Lemma create_buffer_is_malloc_witness :
  to_size_t (5 * sizeof_uint8_t) = 5.
Proof.
  apply (create_buffer_is_malloc world_ok ∅ [] 5). vm_compute. split; discriminate.
Defined.

(** C4 as stated fails: with an allocator that serves a zero-byte request,
    as emscripten's does, [create_buffer(0)] is not null. *)
Lemma create_buffer_zero_not_null :
  exists s',
    create_buffer world_ok 0 s_empty = Some (Ptr 0 0, s')
    /\ is_null (Ptr 0 0) = false.
Proof. eexists. split; reflexivity. Qed.

(** C5. When [WebPGetInfo] reports an error or [WebPDecodeRGBA] returns
    null, both transcode operations return null, the heap is as it was and
    nothing was allocated on the way: [createImageBuffer] is not reached. *)
Theorem decode_failure_returns_null W f h l p size :
  webp_get_info W h p size = None \/ webp_decode_rgba W h p size = None ->
  exists l',
    transcode W f p size (State h l) = Some (NULL, State h (l ++ l'))
    /\ existsb is_alloc_event l' = false
    /\ Forall (fun e => is_alloc_event e = false) l'.
Proof.
  intros Hfail.
  destruct (webp_get_info W h p size) as [[w ht]|] eqn:E1.
  - destruct Hfail as [Hfail|E2]; [discriminate|].
    eexists. split; [apply (transcode_decode_fails W f h l p size w ht E1 E2)|].
    unfold decode_log, null_diagnostic. destruct (is_null p); cbn.
    all: split; [reflexivity|repeat constructor].
  - eexists. split; [apply (transcode_info_fails W f h l p size E1)|].
    unfold decode_log, null_diagnostic. destruct (is_null p); cbn.
    all: split; [reflexivity|repeat constructor].
Qed.

Lemma decode_failure_returns_null_witness :
  exists l',
    transcode world_bad_input PNG (Ptr 7 0) 10 s_input
    = Some (NULL, State (st_heap s_input) ([] ++ l'))
    /\ existsb is_alloc_event l' = false
    /\ Forall (fun e => is_alloc_event e = false) l'.
Proof.
  apply (decode_failure_returns_null world_bad_input PNG (st_heap s_input) []
           (Ptr 7 0) 10).
  left. reflexivity.
Defined.

(** C6. Once decoding has succeeded, the RGBA buffer is handed to
    [WebPFree] as the last thing before the operation returns, whether the
    writer reported success or failure, and what is returned neither is nor
    owns that buffer. *)
Theorem rgba_buffer_released W f h l p size w0 h0 w ht pixels chunks result :
  never_fails W ->
  webp_get_info W h p size = Some (w0, h0) ->
  webp_decode_rgba W h p size = Some (w, ht, pixels) ->
  writer_output W f w ht pixels = (chunks, result) ->
  chunks_fit chunks = true ->
  exists rgba s1 r s' l',
    decode_webp_to_rgba W p size 0 0 (State h l) = Some ((Ptr rgba 0, w, ht), s1)
    /\ h !! rgba = None
    /\ st_heap s1 !! rgba = Some (Raw (Some <$> pixels))
    /\ transcode W f p size (State h l) = Some (r, s')
    /\ (result = 0 -> r = NULL)
    /\ (result <> 0 -> r <> NULL)
    /\ st_log s' = l ++ l' ++ [EvWebPFree (Ptr rgba 0)]
    /\ st_heap s' !! rgba = None
    /\ r <> Ptr rgba 0
    /\ rgba ∉ owned_blocks (st_heap s') r.
Proof.
  intros HW E1 E2 Ew Hfit.
  destruct (transcode_decoded W HW f h l p size w0 h0 w ht pixels chunks result
              E1 E2 Ew Hfit)
    as (h' & l' & n & m & a & d & E & B & _ & Hr & Hr' & _ & Hne & _).
  exists (fresh_block h).
  eexists _, _, _,
    (decode_log p size ++ EvWebPDecodeRGBA p size
       :: EvMalloc sizeof_ImageBuffer
            (Ptr (fresh_block (<[fresh_block h := Raw (Some <$> pixels)]> h)) 0)
       :: l').
  split; [rewrite decode_webp_to_rgba_run, E1, E2; reflexivity|].
  split; [exact Hr|].
  split; [cbn [st_heap]; apply lookup_insert_eq|].
  split; [exact E|].
  cbn [st_heap st_log].
  split; [intros ->; reflexivity|].
  split; [intros Hres; destruct (Z.eqb_spec result 0); [contradiction|discriminate]|].
  split; [rewrite <- (app_assoc (decode_log p size)); reflexivity|].
  split; [exact Hr'|].
  split.
  - destruct (result =? 0); [discriminate|]. intros [= E']. apply Hne, E'.
  - destruct (result =? 0); [cbn; apply not_elem_of_empty|].
    intros Hin. apply (owned_blocks_live _ _ _ _ _ _ _ _ B) in Hin.
    rewrite Hr' in Hin. destruct Hin; discriminate.
Qed.

Lemma rgba_buffer_released_witness :
  exists rgba s1 r s' l',
    decode_webp_to_rgba world_ok (Ptr 7 0) 10 0 0 s_input
    = Some ((Ptr rgba 0, 1, 1), s1)
    /\ st_heap s_input !! rgba = None
    /\ st_heap s1 !! rgba = Some (Raw (Some <$> bytes_of [255; 0; 0; 255]))
    /\ transcode world_ok JPG (Ptr 7 0) 10 s_input = Some (r, s')
    /\ (1 = 0 -> r = NULL)
    /\ (1 <> 0 -> r <> NULL)
    /\ st_log s' = [] ++ l' ++ [EvWebPFree (Ptr rgba 0)]
    /\ st_heap s' !! rgba = None
    /\ r <> Ptr rgba 0
    /\ rgba ∉ owned_blocks (st_heap s') r.
Proof.
  apply (rgba_buffer_released world_ok JPG (st_heap s_input) [] (Ptr 7 0) 10
           1 1 1 1 (bytes_of [255; 0; 0; 255])
           [bytes_of [255]; bytes_of [216]; bytes_of [255]] 1).
  - intros ? ?. reflexivity.
  - reflexivity.
  - reflexivity.
  - reflexivity.
  - reflexivity.
Defined.

(** C7. Releasing a null handle changes nothing; releasing a handle in
    working order once frees its stretchy block and its own storage and
    leaves every other block as it was. *)
Theorem release_image_handle_frees :
  (forall s, release_image_handle NULL s = Some (tt, s))
  /\ (forall h l p,
        buffer_ok h p = true ->
        exists h' l',
          release_image_handle p (State h l) = Some (tt, State h' (l ++ l'))
          /\ (forall b, b ∈ owned_blocks h p -> is_Some (h !! b) /\ h' !! b = None)
          /\ (forall b, b ∉ owned_blocks h p -> h' !! b = h !! b)).
Proof.
  split; [apply release_null|].
  intros h l p Hok.
  destruct (buffer_ok_at _ _ Hok) as (ib & bc & n & m & a & d & -> & [Hib Ha Hd Hb]).
  unfold release_image_handle, owned_blocks. cbn [is_null negb]. rewrite Hib.
  step. unfold sb_free.
  destruct a as [|sb off|]; [| |contradiction]; norm.
  - erewrite free_run by lk.
    exists (delete ib h), [EvFree (Ptr ib 0)].
    split; [reflexivity|]. split.
    + intros b [->%elem_of_singleton|[]%elem_of_empty]%elem_of_union.
      split; [eauto|apply lookup_delete_eq].
    + intros b [Hb1%not_elem_of_singleton _]%not_elem_of_union.
      apply lookup_delete_ne. neq.
  - destruct Ha as (-> & Ha).
    assert (Hne : sb <> ib) by (intros ->; congruence).
    norm. erewrite free_run by lk. norm.
    erewrite free_run by lk.
    rewrite <- app_assoc.
    eexists _, _. split; [reflexivity|]. split.
    + intros b [->%elem_of_singleton| ->%elem_of_singleton]%elem_of_union.
      * split; [eauto|apply lookup_delete_eq].
      * split; [eauto|]. rewrite lookup_delete_ne by neq. apply lookup_delete_eq.
    + intros b [Hb1%not_elem_of_singleton Hb2%not_elem_of_singleton]%not_elem_of_union.
      rewrite !lookup_delete_ne by neq. reflexivity.
Qed.

Lemma release_image_handle_frees_witness :
  exists h' l',
    release_image_handle (Ptr 1 0)
      (State {[ 1%N := Image (Some 1) (Some (Ptr 2 8));
                2%N := Stretchy (Some 128) (Some 128) (uninit 128) ]} [])
    = Some (tt, State h' ([] ++ l'))
    /\ (forall b,
          b ∈ owned_blocks {[ 1%N := Image (Some 1) (Some (Ptr 2 8));
                              2%N := Stretchy (Some 128) (Some 128) (uninit 128) ]} (Ptr 1 0) ->
          is_Some (({[ 1%N := Image (Some 1) (Some (Ptr 2 8));
                      2%N := Stretchy (Some 128) (Some 128) (uninit 128) ]}
                    : gmap N object) !! b)
          /\ h' !! b = None)
    /\ (forall b,
          b ∉ owned_blocks {[ 1%N := Image (Some 1) (Some (Ptr 2 8));
                              2%N := Stretchy (Some 128) (Some 128) (uninit 128) ]} (Ptr 1 0) ->
          h' !! b = ({[ 1%N := Image (Some 1) (Some (Ptr 2 8));
                        2%N := Stretchy (Some 128) (Some 128) (uninit 128) ]}
                     : gmap N object) !! b).
Proof.
  apply (proj2 release_image_handle_frees).
  reflexivity.
Defined.



(** C9. With a null input pointer a transcode operation prints its
    diagnostic and goes on: the next thing it does is call [WebPGetInfo] on
    the null pointer, and if that succeeds, [WebPDecodeRGBA] on the null
    pointer; it returns null early only if [WebPGetInfo] fails. *)
Theorem null_input_is_still_decoded W f h l size :
  never_fails W ->
  (forall w ht pixels,
     chunks_fit (fst (writer_output W f w ht pixels)) = true) ->
  exists r s' rest,
    transcode W f NULL size (State h l) = Some (r, s')
    /\ st_log s' = l ++ null_diagnostic :: EvWebPGetInfo NULL size :: rest
    /\ match webp_get_info W h NULL size with
       | Some _ => exists rest', rest = EvWebPDecodeRGBA NULL size :: rest'
       | None =>
           r = NULL
           /\ rest = [EvStderr ("WebPGetInfo() returned an error" +:+ newline)]
       end.
Proof.
  intros HW Hfit.
  destruct (webp_get_info W h NULL size) as [[w0 h0]|] eqn:E1.
  - destruct (webp_decode_rgba W h NULL size) as [[[w ht] pixels]|] eqn:E2.
    + destruct (writer_output W f w ht pixels) as [chunks result] eqn:Ew.
      specialize (Hfit w ht pixels). rewrite Ew in Hfit. cbn [fst] in Hfit.
      destruct (transcode_decoded W HW f h l NULL size w0 h0 w ht pixels chunks
                  result E1 E2 Ew Hfit)
        as (h' & l' & n & m & a & d & E & _).
      eexists _, _, _. split; [exact E|].
      cbn [st_log decode_log is_null app]. split; [reflexivity|].
      eexists. reflexivity.
    + eexists _, _, _.
      split; [apply (transcode_decode_fails W f h l NULL size w0 h0 E1 E2)|].
      cbn [st_log decode_log is_null app]. split; [reflexivity|].
      eexists. reflexivity.
  - eexists _, _, _.
    split; [apply (transcode_info_fails W f h l NULL size E1)|].
    cbn [st_log decode_log is_null app]. split; [reflexivity|]. split; reflexivity.
Qed.

Lemma null_input_is_still_decoded_witness :
  exists r s' rest,
    transcode world_ok PNG NULL 0 s_empty = Some (r, s')
    /\ st_log s' = [] ++ null_diagnostic :: EvWebPGetInfo NULL 0 :: rest
    /\ exists rest', rest = EvWebPDecodeRGBA NULL 0 :: rest'.
Proof.
  apply (null_input_is_still_decoded world_ok PNG ∅ [] 0).
  - intros ? ?. reflexivity.
  - intros w ht pixels. reflexivity.
Defined.

(** C10. The accessors read through their argument without a null check:
    on a null or dead handle they fault where [release_image_handle]
    returns; on a live handle [get_num_bytes_from_handle] is the
    [byte_count] field and [get_image_bytes_from_handle] the [bytes] field,
    which is null right after creation and the sum of the appended sizes
    after appends. *)
Theorem accessors_dereference W :
  (forall s,
     get_image_bytes_from_handle NULL s = None
     /\ get_num_bytes_from_handle NULL s = None
     /\ release_image_handle NULL s = Some (tt, s))
  /\ (forall h l b off,
        h !! b = None ->
        get_image_bytes_from_handle (Ptr b off) (State h l) = None
        /\ get_num_bytes_from_handle (Ptr b off) (State h l) = None)
  /\ (forall h l b bc a,
        h !! b = Some (Image (Some bc) (Some a)) ->
        get_num_bytes_from_handle (Ptr b 0) (State h l) = Some (bc, State h l)
        /\ get_image_bytes_from_handle (Ptr b 0) (State h l) = Some (a, State h l))
  /\ (forall h l chunks,
        never_fails W ->
        chunks_fit chunks = true ->
        exists p s0 s',
          createImageBuffer W (State h l) = Some (p, s0)
          /\ get_image_bytes_from_handle p s0 = Some (NULL, s0)
          /\ get_num_bytes_from_handle p s0 = Some (0, s0)
          /\ write_chunks W p chunks s0 = Some (tt, s')
          /\ get_num_bytes_from_handle p s' = Some (total_size chunks, s')).
Proof.
  split; [|split; [|split]].
  - intros [h l]. repeat split; reflexivity.
  - intros h l b off Hb.
    unfold get_image_bytes_from_handle, get_num_bytes_from_handle,
      load_bytes, load_byte_count.
    rewrite !(bind_run_none _ _ _ (object_at_dead h l b off Hb)). tauto.
  - intros h l b bc a Hb. split.
    + eapply load_byte_count_run, Hb.
    + eapply load_bytes_run, Hb.
  - intros h l chunks HW Hfit.
    set (ib := fresh_block h).
    set (h0 := <[ib := Image (Some 0) (Some NULL)]> h).
    assert (B0 : buffer_at h0 ib 0 0 0 NULL []) by apply buffer_at_fresh.
    destruct (write_chunks_run W HW (total_size chunks) chunks h0
                (l ++ [EvMalloc sizeof_ImageBuffer (Ptr ib 0)]) ib 0 0 0 NULL [] B0)
      as (h1 & l1 & n1 & m1 & a1 & d1 & E1 & B1 & _ & _); [lia|exact Hfit|].
    rewrite Z.add_0_l in *.
    eexists _, _, _.
    split; [apply createImageBuffer_run, HW|].
    split; [eapply get_image_bytes_run, B0|].
    split; [eapply get_num_bytes_run, B0|].
    split; [exact E1|].
    eapply get_num_bytes_run, B1.
Qed.

Lemma accessors_dereference_witness :
  (get_num_bytes_from_handle (Ptr 1 0)
     (State {[ 1%N := Image (Some 4) (Some (Ptr 2 8)) ]} [])
   = Some (4, State {[ 1%N := Image (Some 4) (Some (Ptr 2 8)) ]} [])
   /\ get_image_bytes_from_handle (Ptr 1 0)
        (State {[ 1%N := Image (Some 4) (Some (Ptr 2 8)) ]} [])
      = Some (Ptr 2 8, State {[ 1%N := Image (Some 4) (Some (Ptr 2 8)) ]} []))
  /\ (exists p s0 s',
        createImageBuffer world_ok (State ∅ []) = Some (p, s0)
        /\ get_image_bytes_from_handle p s0 = Some (NULL, s0)
        /\ get_num_bytes_from_handle p s0 = Some (0, s0)
        /\ write_chunks world_ok p [bytes_of [1; 2]; bytes_of [3]] s0 = Some (tt, s')
        /\ get_num_bytes_from_handle p s' = Some (3, s')).
Proof.
  destruct (accessors_dereference world_ok) as (_ & _ & Hlive & Hfresh).
  split.
  - apply Hlive. reflexivity.
  - apply (Hfresh ∅ [] [bytes_of [1; 2]; bytes_of [3]]).
    + intros ? ?. reflexivity.
    + reflexivity.
Defined.

(** * Resources, failures and composition *)

(** ** The footprint of a run *)

Lemma owns_dec h ib b : owns h ib b \/ ~ owns h ib b.
Proof.
  destruct (decide (b = ib)) as [->|Hne]; [left; left; reflexivity|].
  destruct (h !! ib) as [[|bc [[|b' off|]|]|]|] eqn:E;
    try (right; intros [?|(bc' & off' & H)]; congruence).
  destruct (decide (b' = b)) as [->|Hne'].
  - left. right. eauto.
  - right. intros [?|(bc' & off' & H)]; congruence.
Qed.

Lemma moved_trans h1 h2 h3 ib :
  moved h1 h2 ib -> moved h2 h3 ib -> moved h1 h3 ib.
Proof.
  intros (A1 & A2 & A3) (B1 & B2 & B3). split; [|split]; intros b H H'.
  - destruct (owns_dec h2 ib b) as [O|O].
    + rewrite (B2 b O H'), (A3 b O H). reflexivity.
    + rewrite (B1 b O H'). apply A1; assumption.
  - destruct (owns_dec h2 ib b) as [O|O].
    + apply B2; assumption.
    + rewrite (B1 b O H'). apply A2; assumption.
  - destruct (owns_dec h2 ib b) as [O|O].
    + apply A3; assumption.
    + rewrite <- (A1 b H' O). apply B3; assumption.
Qed.

Lemma moved_same_owner h h' ib :
  (forall b, owns h' ib b <-> owns h ib b) ->
  (forall b, ~ owns h ib b -> h' !! b = h !! b) ->
  moved h h' ib.
Proof.
  intros Hown Hsame. split; [|split]; intros b H H'.
  - apply Hsame, H.
  - exfalso. apply H', Hown, H.
  - exfalso. apply H', Hown, H.
Qed.

Lemma owns_handle h ib bc a b :
  h !! ib = Some (Image bc (Some a)) ->
  owns h ib b <-> b = ib \/ exists off, a = Ptr b off.
Proof.
  intros Hib. split.
  - intros [->|(bc' & off & H)]; [left; reflexivity|].
    rewrite Hib in H. injection H as _ ->. right. eauto.
  - intros [->|(off & ->)]; [left; reflexivity|right; eauto].
Qed.

Section Footprint.

Variable W : world.
Hypothesis HW : never_fails W.

Lemma sb_add_handle_moved h l ib bc n m a d inc :
  buffer_at h ib bc n m a d ->
  0 < inc -> n + inc <= INT_MAX ->
  exists r h' l',
    sb_add W (load_bytes (Ptr ib 0)) (store_bytes (Ptr ib 0)) inc (State h l)
    = Some (r, State h' l')
    /\ moved h h' ib.
Proof.
  intros [Hib Ha Hd Hb] Hinc Hfit.
  unfold sb_add, stb__sbmaybegrow.
  step.
  destruct a as [|sb off|]; [| |contradiction].
  - destruct Ha as (-> & -> & -> & ->).
    unfold stb__sbneedgrow, stb__sbgrow. step.
    destruct (stb__sbgrowf_null W HW h l inc) as [l1 E1]; [lia|].
    rewrite E1. clear E1.
    set (sb := fresh_block h).
    assert (Hsb : h !! sb = None) by apply fresh_block_dead.
    assert (Hne : sb <> ib) by (intros ->; congruence).
    step. step.
    unfold stb__sbn.
    step. step. step. step.
    eexists _, _, _. split; [reflexivity|].
    split; [|split]; intros b H H'.
    + rewrite (owns_handle _ _ _ _ _ Hib) in H.
      erewrite owns_handle in H' by lk.
      assert (b <> ib) by (intros ->; apply H; left; reflexivity).
      assert (b <> sb) by (intros ->; apply H'; right; eauto).
      lk.
    + rewrite (owns_handle _ _ _ _ _ Hib) in H.
      erewrite owns_handle in H' by lk.
      destruct H as [->|(off & [=])]. exfalso. apply H'. left. reflexivity.
    + erewrite owns_handle in H by lk.
      destruct H as [->|(off & [= <-])]; [exfalso; apply H'; left; reflexivity|].
      exact Hsb.
  - destruct Ha as (-> & Ha).
    assert (Hne : sb <> ib) by (intros ->; congruence).
    unfold stb__sbneedgrow, stb__sbn, stb__sbm. step. step.
    rewrite (to_int_id (n + inc)) by (consts; lia).
    destruct (Z.geb_spec (n + inc) m) as [Hg|Hg].
    + unfold stb__sbgrow. step.
      destruct (stb__sbgrowf_live W HW h l sb m n d inc) as (l1 & m' & E1 & Hm');
        [assumption|assumption|lia|lia|lia|lia|].
      rewrite E1. clear E1.
      set (sb' := fresh_block (delete sb h)).
      assert (Hsb' : delete sb h !! sb' = None) by apply fresh_block_dead.
      assert (Hne' : sb' <> ib).
      { intros E. rewrite E, lookup_delete_ne in Hsb' by neq. congruence. }
      step. step. step. step. step. step.
      eexists _, _, _. split; [reflexivity|].
      split; [|split]; intros b H H'.
      * rewrite (owns_handle _ _ _ _ _ Hib) in H.
        erewrite owns_handle in H' by lk.
        assert (b <> ib) by (intros ->; apply H; left; reflexivity).
        assert (b <> sb) by (intros ->; apply H; right; eauto).
        assert (b <> sb') by (intros ->; apply H'; right; eauto).
        lk.
      * rewrite (owns_handle _ _ _ _ _ Hib) in H.
        erewrite owns_handle in H' by lk.
        destruct H as [->|(off & [= <-])]; [exfalso; apply H'; left; reflexivity|].
        assert (sb <> sb') by (intros E; apply H'; right; rewrite <- E; eauto).
        rewrite lookup_insert_ne by neq. rewrite lookup_insert_ne by neq.
        rewrite lookup_insert_ne by neq. apply lookup_delete_eq.
      * rewrite (owns_handle _ _ _ _ _ Hib) in H'.
        erewrite owns_handle in H by lk.
        destruct H as [->|(off & [= <-])]; [exfalso; apply H'; left; reflexivity|].
        assert (sb' <> sb) by (intros E; apply H'; right; rewrite E; eauto).
        rewrite lookup_delete_ne in Hsb' by neq. exact Hsb'.
    + step. step. step. step. step.
      eexists _, _, _. split; [reflexivity|].
      apply moved_same_owner.
      * intros b. rewrite (owns_handle _ _ _ _ _ Hib).
        erewrite owns_handle by lk. reflexivity.
      * intros b H. rewrite (owns_handle _ _ _ _ _ Hib) in H.
        assert (b <> ib) by (intros ->; apply H; left; reflexivity).
        assert (b <> sb) by (intros ->; apply H; right; eauto).
        lk.
Qed.

Lemma write_image_to_mem_moved h l ib bc n m a d data :
  buffer_at h ib bc n m a d ->
  Z.of_nat (length data) <= INT_MAX ->
  (n < bc + Z.of_nat (length data) ->
   n + Z.max (Z.of_nat (length data)) 128 <= INT_MAX) ->
  exists h' l',
    write_image_to_mem W (Ptr ib 0) data (Z.of_nat (length data)) (State h l)
    = Some (tt, State h' l')
    /\ moved h h' ib.
Proof.
  set (size := Z.of_nat (length data)).
  intros B Hsize Hfit.
  assert (Hsize0 : 0 <= size) by (subst size; lia).
  pose proof B as [Hib Ha Hd Hb].
  unfold write_image_to_mem. step.
  rewrite (sb_count_run _ _ _ _ _ _ _ _ B). step.
  rewrite (to_int_id n), (to_size_t_id n), (to_size_t_id size),
    (to_size_t_id (bc + size)) by (consts; lia).
  destruct (Z.ltb_spec n (bc + size)) as [Hlt|Hge].
  - specialize (Hfit Hlt).
    assert (Hinc : (if size <? 128 then 128 else size) = Z.max size 128).
    { destruct (Z.ltb_spec size 128); lia. }
    rewrite Hinc. norm.
    destruct (sb_add_handle W HW h l ib bc n m a d (Z.max size 128) B)
      as (h1 & l1 & m1 & a1 & d1 & E1 & B1 & _); [lia|lia|].
    destruct (sb_add_handle_moved h l ib bc n m a d (Z.max size 128) B)
      as (r & h1' & l1' & E1' & M1); [lia|lia|].
    rewrite E1 in E1'. injection E1' as _ <- _.
    rewrite E1. clear E1. norm.
    pose proof B1 as [Hib1 Ha1 Hd1 Hb1].
    destruct a1 as [|sb off|]; [destruct Ha1 as (_ & ? & _); lia| |contradiction].
    destruct Ha1 as (-> & Ha1).
    assert (Hne : sb <> ib) by (intros ->; congruence).
    step. step. cbn [ptr_add].
    erewrite memcpy_stretchy; [|lk|lia|lia| |lia].
    2:{ rewrite Hd1. lia. }
    norm. step. step.
    eexists _, _. split; [reflexivity|].
    eapply moved_trans; [exact M1|].
    apply moved_same_owner.
    + intros b. rewrite (owns_handle _ _ _ _ _ Hib1).
      erewrite owns_handle by lk. reflexivity.
    + intros b H. rewrite (owns_handle _ _ _ _ _ Hib1) in H.
      assert (b <> ib) by (intros ->; apply H; left; reflexivity).
      assert (b <> sb) by (intros ->; apply H; right; eauto).
      lk.
  - norm. step. step.
    destruct (Z.eq_dec size 0) as [Hz|Hnz].
    + rewrite Hz, memcpy_zero. norm. step. step.
      eexists _, _. split; [reflexivity|].
      apply moved_same_owner.
      * intros b. rewrite (owns_handle _ _ _ _ _ Hib).
        erewrite owns_handle by lk. reflexivity.
      * intros b H. rewrite (owns_handle _ _ _ _ _ Hib) in H.
        assert (b <> ib) by (intros ->; apply H; left; reflexivity).
        lk.
    + destruct a as [|sb off|]; [destruct Ha as (_ & ? & _); lia| |contradiction].
      destruct Ha as (-> & Ha).
      assert (Hne : sb <> ib) by (intros ->; congruence).
      cbn [ptr_add].
      erewrite memcpy_stretchy; [|lk|lia|lia| |lia].
      2:{ rewrite Hd. lia. }
      norm. step. step.
      eexists _, _. split; [reflexivity|].
      apply moved_same_owner.
      * intros b. rewrite (owns_handle _ _ _ _ _ Hib).
        erewrite owns_handle by lk. reflexivity.
      * intros b H. rewrite (owns_handle _ _ _ _ _ Hib) in H.
        assert (b <> ib) by (intros ->; apply H; left; reflexivity).
        assert (b <> sb) by (intros ->; apply H; right; eauto).
        lk.
Qed.

Lemma moved_refl h ib : moved h h ib.
Proof. apply moved_same_owner; intros; reflexivity. Qed.

Lemma write_chunks_moved final chunks : forall h l ib bc n m a d,
  buffer_at h ib bc n m a d ->
  bc + total_size chunks <= final ->
  counts_fit final chunks = true ->
  exists h' l',
    write_chunks W (Ptr ib 0) chunks (State h l) = Some (tt, State h' l')
    /\ moved h h' ib.
Proof.
  induction chunks as [|c cs IH]; intros h l ib bc n m a d B Hfinal Hfit.
  - exists h, l. split; [reflexivity|apply moved_refl].
  - rewrite total_size_cons in *.
    pose proof (total_size_nonneg cs) as Hcs.
    pose proof B as [_ _ _ Hb].
    cbn [counts_fit forallb] in Hfit. apply andb_prop in Hfit as [Hc Hfit].
    apply Z.leb_le in Hc.
    destruct (write_image_to_mem_run W HW h l ib bc n m a d c B)
      as (h1 & l1 & n1 & m1 & a1 & d1 & E1 & B1 & _); [lia|lia|].
    destruct (write_image_to_mem_moved h l ib bc n m a d c B)
      as (h1' & l1' & E1' & M1); [lia|lia|].
    rewrite E1 in E1'. injection E1' as <- _.
    destruct (IH h1 (l ++ l1) ib _ _ _ _ _ B1) as (h2 & l2 & E2 & M2);
      [lia|exact Hfit|].
    exists h2, l2. split.
    + unfold write_chunks in *. cbn [for_each]. rewrite bind_run, E1, E2.
      reflexivity.
    + eapply moved_trans; eassumption.
Qed.

End Footprint.

(** ** What a run logs *)

Lemma logs_only_ret P {A} (a : A) : logs_only P (ret a).
Proof.
  intros s a' s' [= <- <-]. exists []. rewrite app_nil_r. split; reflexivity.
Qed.

Lemma logs_only_fault P {A} : logs_only P (@fault A).
Proof. intros s a s' [=]. Qed.

Lemma logs_only_bind P {A B} (c : M A) (k : A -> M B) :
  logs_only P c -> (forall a, logs_only P (k a)) -> logs_only P (c ≫= k).
Proof.
  intros Hc Hk s b s'. rewrite bind_run.
  destruct (c s) as [[a s1]|] eqn:E; [|discriminate].
  intros E'. destruct (Hc _ _ _ E) as (l1 & H1 & F1).
  destruct (Hk a _ _ _ E') as (l2 & H2 & F2).
  exists (l1 ++ l2). rewrite H2, H1, app_assoc, forallb_app, F1, F2.
  split; reflexivity.
Qed.

Lemma logs_only_quiet P {A} (c : M A) :
  (forall s a s', c s = Some (a, s') -> st_log s' = st_log s) -> logs_only P c.
Proof.
  intros H s a s' E. exists []. rewrite app_nil_r, (H _ _ _ E). split; reflexivity.
Qed.

Lemma logs_only_emit (P : event -> bool) e : P e = true -> logs_only P (emit e).
Proof.
  intros He s a s' [= _ <-]. exists [e]. cbn. rewrite He. split; reflexivity.
Qed.

Lemma logs_only_get_heap P : logs_only P get_heap.
Proof. apply logs_only_quiet. intros s a s' [= _ <-]. reflexivity. Qed.

Lemma logs_only_put_heap P h : logs_only P (put_heap h).
Proof. apply logs_only_quiet. intros s a s' [= _ <-]. reflexivity. Qed.

Lemma logs_only_object_at P p : logs_only P (object_at p).
Proof.
  unfold object_at. destruct p as [|b off|]; try apply logs_only_fault.
  apply logs_only_bind; [apply logs_only_get_heap|]. intros h.
  destruct (h !! b); [|apply logs_only_fault].
  destruct (off =? 0); [apply logs_only_ret|apply logs_only_fault].
Qed.

Ltac logs :=
  repeat first
    [ apply logs_only_ret
    | apply logs_only_fault
    | apply logs_only_get_heap
    | apply logs_only_put_heap
    | apply logs_only_object_at
    | apply logs_only_emit; reflexivity
    | apply logs_only_bind; [|intros ?]
    | match goal with
      | |- logs_only _ (match ?x with _ => _ end) => destruct x
      | |- logs_only _ (let '(_, _) := ?x in _) => destruct x
      end ].

Lemma logs_only_load_bytes P p : logs_only P (load_bytes p).
Proof. unfold load_bytes. logs. Qed.

Lemma logs_only_load_byte_count P p : logs_only P (load_byte_count p).
Proof. unfold load_byte_count. logs. Qed.

Lemma logs_only_store_bytes P p v : logs_only P (store_bytes p v).
Proof. unfold store_bytes, set_object. logs. Qed.

Lemma logs_only_store_byte_count P p v : logs_only P (store_byte_count p v).
Proof. unfold store_byte_count, set_object. logs. Qed.

Lemma logs_only_load_int P p i : logs_only P (load_int p i).
Proof. unfold load_int. logs. Qed.

Lemma logs_only_store_int P p i v : logs_only P (store_int p i v).
Proof. unfold store_int, set_object. logs. Qed.

Lemma logs_only_memcpy P dst src n : logs_only P (memcpy dst src n).
Proof. unfold memcpy. logs. Qed.

Lemma logs_only_alloc_block P o : logs_only P (alloc_block o).
Proof. unfold alloc_block. logs. Qed.

Lemma logs_only_malloc W size : logs_only is_alloc_event (malloc W size).
Proof. unfold malloc. logs; apply logs_only_alloc_block. Qed.

Lemma logs_only_realloc W p size : logs_only is_alloc_event (realloc W p size).
Proof.
  unfold realloc. destruct (is_null p); [apply logs_only_malloc|].
  logs; apply logs_only_alloc_block.
Qed.

Lemma logs_only_sb_count P a : logs_only P (sb_count a).
Proof. unfold sb_count, stb__sbn. destruct (is_null a); logs; apply logs_only_load_int. Qed.

Lemma logs_only_stb__sbgrowf W arr inc isz :
  logs_only is_alloc_event (stb__sbgrowf W arr inc isz).
Proof.
  unfold stb__sbgrowf, stb__sbm, when.
  apply logs_only_bind.
  { destruct (is_null arr); logs; apply logs_only_load_int. }
  intros dbl. apply logs_only_bind; [apply logs_only_sb_count|]. intros cnt.
  apply logs_only_bind; [apply logs_only_realloc|]. intros p.
  destruct (is_null p); [apply logs_only_ret|].
  apply logs_only_bind.
  { destruct (is_null arr); [apply logs_only_store_int|apply logs_only_ret]. }
  intros _. apply logs_only_bind; [apply logs_only_store_int|].
  intros _. apply logs_only_ret.
Qed.

Lemma logs_only_sb_add W get_a set_a n :
  logs_only is_alloc_event get_a ->
  (forall p, logs_only is_alloc_event (set_a p)) ->
  logs_only is_alloc_event (sb_add W get_a set_a n).
Proof.
  intros Hget Hset.
  unfold sb_add, stb__sbmaybegrow, stb__sbgrow, stb__sbneedgrow, stb__sbn, stb__sbm.
  apply logs_only_bind.
  { apply logs_only_bind; [exact Hget|]. intros a.
    apply logs_only_bind.
    { destruct (is_null a); [apply logs_only_ret|].
      apply logs_only_bind; [apply logs_only_load_int|]. intros cnt.
      apply logs_only_bind; [apply logs_only_load_int|]. intros m.
      apply logs_only_ret. }
    intros g. destruct g; [|apply logs_only_ret].
    apply logs_only_bind; [exact Hget|]. intros a'.
    apply logs_only_bind; [apply logs_only_stb__sbgrowf|]. intros p.
    apply Hset. }
  intros _. apply logs_only_bind; [exact Hget|]. intros a.
  apply logs_only_bind; [apply logs_only_load_int|]. intros cnt.
  apply logs_only_bind; [apply logs_only_store_int|]. intros _.
  apply logs_only_bind; [exact Hget|]. intros a'.
  apply logs_only_bind; [apply logs_only_load_int|]. intros cnt'.
  apply logs_only_ret.
Qed.

Lemma logs_only_write_image_to_mem W context data size :
  logs_only is_alloc_event (write_image_to_mem W context data size).
Proof.
  unfold write_image_to_mem.
  apply logs_only_bind; [apply logs_only_load_bytes|]. intros bytes.
  apply logs_only_bind; [apply logs_only_sb_count|]. intros cnt.
  apply logs_only_bind; [apply logs_only_load_byte_count|]. intros bc.
  apply logs_only_bind.
  { destruct (_ <? _); [|apply logs_only_ret].
    apply logs_only_bind; [|intros _; apply logs_only_ret].
    apply logs_only_sb_add; [apply logs_only_load_bytes|].
    intros p. apply logs_only_store_bytes. }
  intros _. apply logs_only_bind; [apply logs_only_load_bytes|]. intros bytes'.
  apply logs_only_bind; [apply logs_only_load_byte_count|]. intros bc'.
  apply logs_only_bind; [apply logs_only_memcpy|]. intros _.
  apply logs_only_bind; [apply logs_only_load_byte_count|]. intros bc''.
  apply logs_only_store_byte_count.
Qed.

Lemma logs_only_for_each P {A} (l : list A) (f : A -> M unit) :
  (forall x, logs_only P (f x)) -> logs_only P (for_each l f).
Proof.
  intros Hf. induction l as [|x l IH]; cbn [for_each]; [apply logs_only_ret|].
  apply logs_only_bind; [apply Hf|intros _; exact IH].
Qed.

Lemma logs_only_write_chunks W p chunks :
  logs_only is_alloc_event (write_chunks W p chunks).
Proof.
  unfold write_chunks. apply logs_only_for_each.
  intros c. apply logs_only_write_image_to_mem.
Qed.

Lemma owns_delete h ib b b' :
  b' <> ib -> owns (delete b' h) ib b <-> owns h ib b.
Proof.
  intros Hne. unfold owns. rewrite lookup_delete_ne by neq. reflexivity.
Qed.

Section Outcome.

Variable W : world.
Hypothesis HW : never_fails W.

(** Everything a transcode call does once both decoder calls succeed. *)
Lemma transcode_outcome f h l p size w0 h0 w ht pixels chunks result :
  webp_get_info W h p size = Some (w0, h0) ->
  webp_decode_rgba W h p size = Some (w, ht, pixels) ->
  writer_output W f w ht pixels = (chunks, result) ->
  chunks_fit chunks = true ->
  let rgba := fresh_block h in
  let ib := fresh_block (<[rgba := Raw (Some <$> pixels)]> h) in
  exists h' l2 n m a d,
    transcode W f p size (State h l)
    = Some (if result =? 0 then NULL else Ptr ib 0,
            State h' (l ++ decode_log p size
                        ++ [EvWebPDecodeRGBA p size;
                            EvMalloc sizeof_ImageBuffer (Ptr ib 0);
                            writer_call f w ht (Ptr rgba 0)]
                        ++ l2 ++ [EvWebPFree (Ptr rgba 0)]))
    /\ forallb is_alloc_event l2 = true
    /\ buffer_at h' ib (total_size chunks) n m a d
    /\ take (Z.to_nat (total_size chunks)) d = Some <$> concat chunks
    /\ (forall b, owns h' ib b -> h !! b = None)
    /\ (forall b, ~ owns h' ib b -> h' !! b = h !! b).
Proof.
  intros E1 E2 Ew Hfit rgba ib.
  assert (Hrgba : h !! rgba = None) by apply fresh_block_dead.
  assert (Hib : <[rgba := Raw (Some <$> pixels)]> h !! ib = None)
    by apply fresh_block_dead.
  assert (Hne : ib <> rgba).
  { intros E. rewrite E, lookup_insert_eq in Hib. discriminate. }
  assert (Hib0 : h !! ib = None) by (rewrite lookup_insert_ne in Hib by neq; exact Hib).
  set (h1 := <[ib := Image (Some 0) (Some NULL)]> (<[rgba := Raw (Some <$> pixels)]> h)).
  assert (B1 : buffer_at h1 ib 0 0 0 NULL []) by apply buffer_at_fresh.
  assert (Hib1 : h1 !! ib = Some (Image (Some 0) (Some NULL))) by (subst h1; lk).
  assert (Hr1 : h1 !! rgba = Some (Raw (Some <$> pixels))) by (subst h1; lk).
  assert (Hown1 : ~ owns h1 ib rgba).
  { eapply not_owns; [exact Hib1|neq|discriminate]. }
  set (l1 := l ++ decode_log p size
               ++ [EvWebPDecodeRGBA p size; EvMalloc sizeof_ImageBuffer (Ptr ib 0);
                   writer_call f w ht (Ptr rgba 0)]).
  destruct (write_chunks_run W HW (total_size chunks) chunks h1 l1 ib 0 0 0
              NULL [] B1)
    as (h2 & l2 & n2 & m2 & a2 & d2 & E & B2 & T2 & F2); [lia|exact Hfit|].
  destruct (write_chunks_moved W HW (total_size chunks) chunks h1 l1 ib 0 0 0
              NULL [] B1)
    as (h2' & l2' & E' & M2); [lia|exact Hfit|].
  rewrite E in E'. injection E' as <- _.
  destruct (logs_only_write_chunks W (Ptr ib 0) chunks _ _ _ E) as (l3 & Hl2 & Al2).
  cbn [st_log] in Hl2. apply app_inv_head in Hl2. subst l3.
  rewrite Z.add_0_l in *. rewrite take_0, app_nil_l in T2.
  destruct (F2 rgba) as [Hr2 Hown2]; [eauto|exact Hown1|].
  rewrite Hr1 in Hr2.
  destruct M2 as (M2a & M2b & M2c).
  exists (delete rgba h2), l2, n2, m2, a2, d2.
  split; [|split; [|split; [|split; [|split]]]].
  - unfold write_chunks in E.
    destruct f; unfold transcode, get_png_handle_from_webp, get_jpg_handle_from_webp.
    all: rewrite bind_run, decode_webp_to_rgba_run, E1, E2; norm.
    all: rewrite createImageBuffer_run by assumption; norm.
    all: unfold stbi_write_png_to_func, stbi_write_jpg_to_func.
    all: unfold emit at 1; norm; cbn [st_heap st_log].
    all: erewrite read_block_run by (fold rgba; fold ib; exact Hr1); norm.
    all: unfold writer_output in Ew; rewrite Ew.
    all: fold rgba; fold ib; fold h1; norm.
    all: unfold l1, writer_call in E; rewrite <- !app_assoc in E; cbn [app] in E.
    all: rewrite <- !app_assoc; cbn [app].
    all: rewrite E; norm.
    all: rewrite (WebPFree_run _ _ _ _ Hr2); norm.
    all: unfold l1, writer_call; rewrite <- !app_assoc; cbn [app].
    all: destruct (result =? 0); reflexivity.
  - exact Al2.
  - apply buffer_at_delete; assumption.
  - exact T2.
  - intros b Hb. apply owns_delete in Hb; [|neq].
    destruct (decide (b = ib)) as [->|Hbi]; [exact Hib0|].
    assert (Hn1 : ~ owns h1 ib b).
    { eapply not_owns; [exact Hib1|exact Hbi|discriminate]. }
    pose proof (M2c b Hb Hn1) as Hd1.
    assert (b <> rgba) by (intros ->; congruence).
    subst h1. rewrite !lookup_insert_ne in Hd1 by neq. exact Hd1.
  - intros b Hb. rewrite owns_delete in Hb by neq.
    destruct (decide (b = rgba)) as [->|Hbr].
    + rewrite lookup_delete_eq, Hrgba. reflexivity.
    + assert (Hbi : b <> ib) by (intros ->; apply Hb; left; reflexivity).
      assert (Hn1 : ~ owns h1 ib b).
      { eapply not_owns; [exact Hib1|exact Hbi|discriminate]. }
      rewrite lookup_delete_ne by neq. rewrite (M2a b Hn1 Hb).
      subst h1. lk.
Qed.

End Outcome.

Lemma owns_owned_blocks h ib b : owns h ib b <-> b ∈ owned_blocks h (Ptr ib 0).
Proof.
  unfold owns, owned_blocks. rewrite elem_of_union, elem_of_singleton.
  split; intros [->|H]; try (left; reflexivity); right.
  - destruct H as (bc & off & ->). apply elem_of_singleton. reflexivity.
  - destruct (h !! ib) as [[|bc [[|sb off|]|]|]|]; try (apply elem_of_empty in H as []).
    apply elem_of_singleton in H as ->. eauto.
Qed.

Lemma release_image_handle_run h l ib bc n m a d :
  buffer_at h ib bc n m a d ->
  exists h' l',
    release_image_handle (Ptr ib 0) (State h l) = Some (tt, State h' (l ++ l'))
    /\ (forall b, owns h ib b -> h' !! b = None)
    /\ (forall b, ~ owns h ib b -> h' !! b = h !! b).
Proof.
  intros [Hib Ha Hd Hb].
  unfold release_image_handle. cbn [is_null negb].
  step. unfold sb_free.
  destruct a as [|sb off|]; [| |contradiction]; norm.
  - erewrite free_run by lk.
    exists (delete ib h), [EvFree (Ptr ib 0)].
    split; [reflexivity|]. split; intros b H.
    + rewrite (owns_handle _ _ _ _ _ Hib) in H.
      destruct H as [->|(off & [=])]. apply lookup_delete_eq.
    + rewrite (owns_handle _ _ _ _ _ Hib) in H.
      apply lookup_delete_ne. intros ->. apply H. left. reflexivity.
  - destruct Ha as (-> & Ha).
    assert (Hne : sb <> ib) by (intros ->; congruence).
    norm. erewrite free_run by lk. norm.
    erewrite free_run by lk.
    rewrite <- app_assoc.
    eexists _, _. split; [reflexivity|]. split; intros b H.
    + rewrite (owns_handle _ _ _ _ _ Hib) in H.
      destruct H as [->|(off & [= <-])]; [apply lookup_delete_eq|].
      rewrite lookup_delete_ne by neq. apply lookup_delete_eq.
    + rewrite (owns_handle _ _ _ _ _ Hib) in H.
      assert (b <> ib) by (intros ->; apply H; left; reflexivity).
      assert (b <> sb) by (intros ->; apply H; right; eauto).
      rewrite !lookup_delete_ne by neq. reflexivity.
Qed.

(** ** Further properties *)

(** X1. A buffer obtained from [create_buffer] and handed straight to
    [destroy_buffer] leaves the heap as it was, whether or not the
    allocation was served. *)
Theorem create_then_destroy_restores_heap W h l size :
  exists p s1 s2,
    create_buffer W size (State h l) = Some (p, s1)
    /\ destroy_buffer p s1 = Some (tt, s2)
    /\ st_heap s2 = h.
Proof.
  unfold create_buffer, destroy_buffer, malloc.
  set (k := to_size_t (size * sizeof_uint8_t)).
  rewrite bind_run. cbn [get_heap st_heap].
  destruct (malloc_ok W h k).
  - eexists _, _, _. split; [reflexivity|]. split.
    + erewrite free_run by lk. reflexivity.
    + cbn [st_heap]. apply delete_insert_id, fresh_block_dead.
  - eexists _, _, _. split; [reflexivity|]. split; reflexivity.
Qed.

(** X2. When decoding and encoding both succeed, the handle a transcode
    operation returns is non-null and in working order, its byte count is
    the total size of what the writer handed to the callback, and the bytes
    behind its byte pointer are exactly those chunks in order. *)
Theorem transcode_handle_holds_output W f h l p size w0 h0 w ht pixels chunks result :
  never_fails W ->
  webp_get_info W h p size = Some (w0, h0) ->
  webp_decode_rgba W h p size = Some (w, ht, pixels) ->
  writer_output W f w ht pixels = (chunks, result) ->
  result <> 0 ->
  chunks_fit chunks = true ->
  exists r s' a,
    transcode W f p size (State h l) = Some (r, s')
    /\ is_null r = false
    /\ buffer_ok (st_heap s') r = true
    /\ get_num_bytes_from_handle r s' = Some (total_size chunks, s')
    /\ get_image_bytes_from_handle r s' = Some (a, s')
    /\ read_bytes (st_heap s') a (total_size chunks) = Some (concat chunks).
Proof.
  intros HW E1 E2 Ew Hres Hfit.
  destruct (transcode_outcome W HW f h l p size w0 h0 w ht pixels chunks result
              E1 E2 Ew Hfit)
    as (h' & l2 & n & m & a & d & E & _ & B & T & _ & _).
  destruct (Z.eqb_spec result 0) as [|_]; [contradiction|].
  eexists _, _, a. split; [exact E|].
  split; [reflexivity|].
  split; [eapply buffer_at_ok, B|].
  split; [eapply get_num_bytes_run, B|].
  split; [eapply get_image_bytes_run, B|].
  eapply read_bytes_buffer; eassumption.
Qed.

Lemma transcode_handle_holds_output_witness :
  exists r s' a,
    transcode world_ok PNG (Ptr 7 0) 10 s_input = Some (r, s')
    /\ is_null r = false
    /\ buffer_ok (st_heap s') r = true
    /\ get_num_bytes_from_handle r s' = Some (4, s')
    /\ get_image_bytes_from_handle r s' = Some (a, s')
    /\ read_bytes (st_heap s') a 4 = Some (bytes_of [137; 80; 78; 71]).
Proof.
  apply (transcode_handle_holds_output world_ok PNG (st_heap s_input) [] (Ptr 7 0) 10
           1 1 1 1 (bytes_of [255; 0; 0; 255])
           [bytes_of [137; 80; 78]; bytes_of [71]] 1).
  - intros ? ?. reflexivity.
  - reflexivity.
  - reflexivity.
  - reflexivity.
  - discriminate.
  - reflexivity.
Defined.

(** X3. Once decoding has succeeded, a transcode call changes the heap by
    the new handle's blocks and nothing else: those blocks were free before
    and are allocated after, and every other block, the RGBA buffer and any
    outgrown array included, is exactly as before the call.  This holds on
    the encode-failure path too, where the handle is not returned. *)
Theorem transcode_heap_footprint W f h l p size w0 h0 w ht pixels chunks result :
  never_fails W ->
  webp_get_info W h p size = Some (w0, h0) ->
  webp_decode_rgba W h p size = Some (w, ht, pixels) ->
  writer_output W f w ht pixels = (chunks, result) ->
  chunks_fit chunks = true ->
  exists r s' ib,
    transcode W f p size (State h l) = Some (r, s')
    /\ r = (if result =? 0 then NULL else Ptr ib 0)
    /\ (forall b, b ∈ owned_blocks (st_heap s') (Ptr ib 0) ->
          h !! b = None /\ is_Some (st_heap s' !! b))
    /\ (forall b, b ∉ owned_blocks (st_heap s') (Ptr ib 0) ->
          st_heap s' !! b = h !! b).
Proof.
  intros HW E1 E2 Ew Hfit.
  destruct (transcode_outcome W HW f h l p size w0 h0 w ht pixels chunks result
              E1 E2 Ew Hfit)
    as (h' & l2 & n & m & a & d & E & _ & B & _ & Hnew & Hold).
  eexists _, _, _. split; [exact E|]. split; [reflexivity|].
  cbn [st_heap]. split; intros b Hb.
  - split; [apply Hnew, owns_owned_blocks, Hb|].
    eapply owned_blocks_live; eassumption.
  - apply Hold. rewrite owns_owned_blocks. exact Hb.
Qed.

Lemma transcode_heap_footprint_witness :
  exists r s' ib,
    transcode world_encode_fails JPG (Ptr 7 0) 10 s_input = Some (r, s')
    /\ r = (if 0 =? 0 then NULL else Ptr ib 0)
    /\ (forall b, b ∈ owned_blocks (st_heap s') (Ptr ib 0) ->
          st_heap s_input !! b = None /\ is_Some (st_heap s' !! b))
    /\ (forall b, b ∉ owned_blocks (st_heap s') (Ptr ib 0) ->
          st_heap s' !! b = st_heap s_input !! b).
Proof.
  apply (transcode_heap_footprint world_encode_fails JPG (st_heap s_input) []
           (Ptr 7 0) 10 1 1 1 1 (bytes_of [255; 0; 0; 255]) [] 0).
  - intros ? ?. reflexivity.
  - reflexivity.
  - reflexivity.
  - reflexivity.
  - reflexivity.
Defined.

(** X4. After a successful transcode, one [release_image_handle] on the
    returned handle brings the heap back to exactly what it was before the
    call: nothing the call allocated outlives the handle. *)
Theorem transcode_then_release_restores_heap W f h l p size w0 h0 w ht pixels
    chunks result :
  never_fails W ->
  webp_get_info W h p size = Some (w0, h0) ->
  webp_decode_rgba W h p size = Some (w, ht, pixels) ->
  writer_output W f w ht pixels = (chunks, result) ->
  result <> 0 ->
  chunks_fit chunks = true ->
  exists r s' s'',
    transcode W f p size (State h l) = Some (r, s')
    /\ release_image_handle r s' = Some (tt, s'')
    /\ st_heap s'' = h.
Proof.
  intros HW E1 E2 Ew Hres Hfit.
  destruct (transcode_outcome W HW f h l p size w0 h0 w ht pixels chunks result
              E1 E2 Ew Hfit)
    as (h' & l2 & n & m & a & d & E & _ & B & _ & Hnew & Hold).
  destruct (Z.eqb_spec result 0) as [|_]; [contradiction|].
  destruct (release_image_handle_run h' (l ++ decode_log p size
              ++ [EvWebPDecodeRGBA p size;
                  EvMalloc sizeof_ImageBuffer
                    (Ptr (fresh_block (<[fresh_block h := Raw (Some <$> pixels)]> h)) 0);
                  writer_call f w ht (Ptr (fresh_block h) 0)]
              ++ l2 ++ [EvWebPFree (Ptr (fresh_block h) 0)]) _ _ _ _ _ _ B)
    as (h'' & l3 & Er & Hfreed & Hkept).
  eexists _, _, _. split; [exact E|]. split; [exact Er|].
  cbn [st_heap]. apply map_eq. intros b.
  destruct (owns_dec h' (fresh_block (<[fresh_block h := Raw (Some <$> pixels)]> h)) b)
    as [O|O].
  - rewrite (Hfreed b O), (Hnew b O). reflexivity.
  - rewrite (Hkept b O). apply Hold, O.
Qed.

Lemma transcode_then_release_restores_heap_witness :
  exists r s' s'',
    transcode world_ok JPG (Ptr 7 0) 10 s_input = Some (r, s')
    /\ release_image_handle r s' = Some (tt, s'')
    /\ st_heap s'' = st_heap s_input.
Proof.
  apply (transcode_then_release_restores_heap world_ok JPG (st_heap s_input) []
           (Ptr 7 0) 10 1 1 1 1 (bytes_of [255; 0; 0; 255])
           [bytes_of [255]; bytes_of [216]; bytes_of [255]] 1).
  - intros ? ?. reflexivity.
  - reflexivity.
  - reflexivity.
  - reflexivity.
  - discriminate.
  - reflexivity.
Defined.

(** X5. Once decoding has succeeded, what a transcode call does outside
    itself is, in order: the decoder calls, one [malloc] of the handle, one
    call of the writer with the dimensions [WebPDecodeRGBA] reported, four
    components, the RGBA buffer and a stride of four times the width (PNG)
    or quality 100 (JPEG), then only [malloc] and [realloc] for growth, and
    last [WebPFree] of the RGBA buffer. *)
Theorem transcode_call_sequence W f h l p size w0 h0 w ht pixels chunks result :
  never_fails W ->
  webp_get_info W h p size = Some (w0, h0) ->
  webp_decode_rgba W h p size = Some (w, ht, pixels) ->
  writer_output W f w ht pixels = (chunks, result) ->
  chunks_fit chunks = true ->
  exists r s' rgba ib growth,
    transcode W f p size (State h l) = Some (r, s')
    /\ st_log s'
       = l ++ decode_log p size
           ++ [EvWebPDecodeRGBA p size;
               EvMalloc sizeof_ImageBuffer (Ptr ib 0);
               match f with
               | PNG => EvWritePng w ht 4 (Ptr rgba 0) (to_int (w * 4))
               | JPG => EvWriteJpg w ht 4 (Ptr rgba 0) 100
               end]
           ++ growth ++ [EvWebPFree (Ptr rgba 0)]
    /\ forallb is_alloc_event growth = true
    /\ h !! rgba = None /\ h !! ib = None /\ ib <> rgba.
Proof.
  intros HW E1 E2 Ew Hfit.
  destruct (transcode_outcome W HW f h l p size w0 h0 w ht pixels chunks result
              E1 E2 Ew Hfit)
    as (h' & l2 & n & m & a & d & E & Al2 & B & _ & Hnew & Hold).
  eexists _, _, (fresh_block h), _, l2. split; [exact E|].
  split; [destruct f; reflexivity|].
  split; [exact Al2|].
  assert (Hib : h !! fresh_block (<[fresh_block h := Raw (Some <$> pixels)]> h) = None).
  { apply Hnew. left. reflexivity. }
  split; [apply fresh_block_dead|]. split; [exact Hib|].
  intros E'.
  pose proof (fresh_block_dead (<[fresh_block h := Raw (Some <$> pixels)]> h)) as Hd.
  rewrite E', lookup_insert_eq in Hd. discriminate.
Qed.

Lemma transcode_call_sequence_witness :
  exists r s' rgba ib growth,
    transcode world_ok JPG (Ptr 7 0) 10 s_input = Some (r, s')
    /\ st_log s'
       = [] ++ decode_log (Ptr 7 0) 10
            ++ [EvWebPDecodeRGBA (Ptr 7 0) 10;
                EvMalloc sizeof_ImageBuffer (Ptr ib 0);
                EvWriteJpg 1 1 4 (Ptr rgba 0) 100]
            ++ growth ++ [EvWebPFree (Ptr rgba 0)]
    /\ forallb is_alloc_event growth = true
    /\ st_heap s_input !! rgba = None /\ st_heap s_input !! ib = None /\ ib <> rgba.
Proof.
  apply (transcode_call_sequence world_ok JPG (st_heap s_input) [] (Ptr 7 0) 10
           1 1 1 1 (bytes_of [255; 0; 0; 255])
           [bytes_of [255]; bytes_of [216]; bytes_of [255]] 1).
  - intros ? ?. reflexivity.
  - reflexivity.
  - reflexivity.
  - reflexivity.
  - reflexivity.
Defined.

Lemma buffer_at_agree h h' ib bc n m a d :
  (forall b, is_Some (h !! b) -> h' !! b = h !! b) ->
  buffer_at h ib bc n m a d -> buffer_at h' ib bc n m a d.
Proof.
  intros Hsame [Hib Ha Hd Hb].
  constructor; [rewrite Hsame by eauto; exact Hib| |exact Hd|exact Hb].
  destruct a as [|sb off|]; [exact Ha| |exact Ha].
  destruct Ha as (-> & Ha). split; [reflexivity|].
  rewrite Hsame by eauto. exact Ha.
Qed.

Lemma read_bytes_agree h h' ib bc n m a d k :
  (forall b, is_Some (h !! b) -> h' !! b = h !! b) ->
  buffer_at h ib bc n m a d ->
  read_bytes h' a k = read_bytes h a k.
Proof.
  intros Hsame [Hib Ha Hd Hb]. unfold read_bytes, elems_at.
  destruct a as [|sb off|]; [reflexivity| |reflexivity].
  destruct Ha as (-> & Ha). rewrite (Hsame sb) by eauto. reflexivity.
Qed.

(** X6. A transcode call, on any of its paths, leaves every block that was
    allocated before it exactly as it was: the caller's input buffer is
    neither freed nor written, and a handle from an earlier call is still in
    working order and reads the same count, pointer and bytes. *)
Theorem transcode_keeps_earlier_blocks W f h l p size q bc a :
  never_fails W ->
  (forall w ht pixels,
     chunks_fit (fst (writer_output W f w ht pixels)) = true) ->
  buffer_ok h q = true ->
  get_num_bytes_from_handle q (State h l) = Some (bc, State h l) ->
  get_image_bytes_from_handle q (State h l) = Some (a, State h l) ->
  exists r s',
    transcode W f p size (State h l) = Some (r, s')
    /\ (forall b, is_Some (h !! b) -> st_heap s' !! b = h !! b)
    /\ buffer_ok (st_heap s') q = true
    /\ get_num_bytes_from_handle q s' = Some (bc, s')
    /\ get_image_bytes_from_handle q s' = Some (a, s')
    /\ (forall k, read_bytes (st_heap s') a k = read_bytes h a k).
Proof.
  intros HW Hfit Hok Hbc Ha.
  destruct (buffer_ok_at _ _ Hok) as (ib & bc0 & n & m & a0 & d & -> & B).
  rewrite (get_num_bytes_run _ _ _ _ _ _ _ _ B) in Hbc. injection Hbc as ->.
  rewrite (get_image_bytes_run _ _ _ _ _ _ _ _ B) in Ha. injection Ha as ->.
  assert (Hrun : exists r h' l',
            transcode W f p size (State h l) = Some (r, State h' l')
            /\ forall b, is_Some (h !! b) -> h' !! b = h !! b).
  { destruct (webp_get_info W h p size) as [[w0 h0]|] eqn:E1.
    - destruct (webp_decode_rgba W h p size) as [[[w ht] pixels]|] eqn:E2.
      + destruct (writer_output W f w ht pixels) as [chunks result] eqn:Ew.
        specialize (Hfit w ht pixels). rewrite Ew in Hfit. cbn [fst] in Hfit.
        destruct (transcode_decoded W HW f h l p size w0 h0 w ht pixels chunks
                    result E1 E2 Ew Hfit)
          as (h' & l' & n' & m' & a' & d' & E & _ & _ & _ & _ & _ & _ & Hsame).
        eexists _, _, _. split; [exact E|exact Hsame].
      + eexists _, _, _.
        split; [apply (transcode_decode_fails W f h l p size w0 h0 E1 E2)|].
        reflexivity.
    - eexists _, _, _.
      split; [apply (transcode_info_fails W f h l p size E1)|]. reflexivity. }
  destruct Hrun as (r & h' & l' & E & Hsame).
  pose proof (buffer_at_agree _ _ _ _ _ _ _ _ Hsame B) as B'.
  exists r, (State h' l'). split; [exact E|].
  split; [exact Hsame|].
  split; [eapply buffer_at_ok, B'|].
  split; [eapply get_num_bytes_run, B'|].
  split; [eapply get_image_bytes_run, B'|].
  intros k. eapply read_bytes_agree; eassumption.
Qed.

Lemma transcode_keeps_earlier_blocks_witness :
  exists r s',
    transcode world_ok PNG (Ptr 7 0) 10 s_with_handle = Some (r, s')
    /\ (forall b, is_Some (st_heap s_with_handle !! b) ->
          st_heap s' !! b = st_heap s_with_handle !! b)
    /\ buffer_ok (st_heap s') (Ptr 1 0) = true
    /\ get_num_bytes_from_handle (Ptr 1 0) s' = Some (1, s')
    /\ get_image_bytes_from_handle (Ptr 1 0) s' = Some (Ptr 2 8, s')
    /\ (forall k, read_bytes (st_heap s') (Ptr 2 8) k
                  = read_bytes (st_heap s_with_handle) (Ptr 2 8) k).
Proof.
  apply (transcode_keeps_earlier_blocks world_ok PNG (st_heap s_with_handle) []
           (Ptr 7 0) 10 (Ptr 1 0) 1 (Ptr 2 8)).
  - intros ? ?. reflexivity.
  - intros w ht pixels. reflexivity.
  - reflexivity.
  - reflexivity.
  - reflexivity.
Defined.



(** X8. An append of size zero changes nothing: no growth, no allocation
    (a fresh handle keeps its null byte pointer), no byte written, the same
    byte count, nothing logged. *)
Theorem empty_append_is_noop W h l p data :
  buffer_ok h p = true ->
  write_image_to_mem W p data 0 (State h l) = Some (tt, State h l).
Proof.
  intros Hok.
  destruct (buffer_ok_at _ _ Hok) as (ib & bc & n & m & a & d & -> & B).
  pose proof B as [Hib Ha Hd Hb].
  unfold write_image_to_mem. step.
  rewrite (sb_count_run _ _ _ _ _ _ _ _ B). step.
  change (to_size_t 0) with 0. rewrite Z.add_0_r.
  rewrite (to_int_id n), (to_size_t_id n), (to_size_t_id bc) by (consts; lia).
  destruct (Z.ltb_spec n bc) as [|_]; [lia|].
  norm. step. step. rewrite memcpy_zero. norm. step. step.
  rewrite Z.add_0_r, (to_size_t_id bc) by (consts; lia).
  rewrite insert_id by exact Hib. reflexivity.
Qed.

Lemma empty_append_is_noop_witness :
  write_image_to_mem world_ok (Ptr 1 0) [] 0 s_with_handle = Some (tt, s_with_handle).
Proof.
  apply (empty_append_is_noop world_ok (st_heap s_with_handle) [] (Ptr 1 0) []).
  reflexivity.
Defined.

(** X9. [createImageBuffer] stores through what [malloc] returned without
    looking at it: if the decoder succeeded and the allocator then refuses
    the handle's eight bytes, a transcode operation does not return null,
    it faults on the null pointer. *)
Theorem transcode_faults_without_handle_memory W f h l p size w0 h0 w ht pixels :
  webp_get_info W h p size = Some (w0, h0) ->
  webp_decode_rgba W h p size = Some (w, ht, pixels) ->
  malloc_ok W (<[fresh_block h := Raw (Some <$> pixels)]> h) sizeof_ImageBuffer = false ->
  transcode W f p size (State h l) = None.
Proof.
  intros E1 E2 Hno.
  destruct f; unfold transcode, get_png_handle_from_webp, get_jpg_handle_from_webp.
  all: rewrite bind_run, decode_webp_to_rgba_run, E1, E2; norm.
  all: unfold createImageBuffer, malloc; norm.
  all: unfold get_heap at 1; cbn [st_heap]; norm; rewrite Hno; norm.
  all: unfold emit at 1; norm; reflexivity.
Qed.

Lemma transcode_faults_without_handle_memory_witness :
  transcode world_no_memory PNG (Ptr 7 0) 10 s_input = None.
Proof.
  apply (transcode_faults_without_handle_memory world_no_memory PNG
           (st_heap s_input) [] (Ptr 7 0) 10 1 1 1 1 (bytes_of [255; 0; 0; 255])).
  - reflexivity.
  - reflexivity.
  - reflexivity.
Defined.

Lemma load_int_wild a i s : load_int (Wild a) i s = None.
Proof. reflexivity. Qed.



(** X11. The [int] size of an append is never checked for sign: a negative
    size becomes a length of more than two gigabytes in the comparison and
    in [memcpy], and the append faults instead of being ignored. *)
Theorem negative_size_append_faults W h l p n data size :
  never_fails W ->
  buffer_ok h p = true ->
  handle_count p (State h l) = Some (n, State h l) ->
  n + 128 <= INT_MAX ->
  - 2147483648 <= size < 0 ->
  write_image_to_mem W p data size (State h l) = None.
Proof.
  intros HW Hok Hn Hfit Hsize.
  destruct (buffer_ok_at _ _ Hok) as (ib & bc & n0 & m & a & d & -> & B).
  rewrite (handle_count_run _ _ _ _ _ _ _ _ B) in Hn. injection Hn as ->.
  pose proof B as [Hib Ha Hd Hb].
  assert (Hsz : to_size_t size = 4294967296 + size).
  { unfold to_size_t. symmetry. apply Z.mod_unique with (q := -1); lia. }
  unfold write_image_to_mem. step.
  rewrite (sb_count_run _ _ _ _ _ _ _ _ B). step.
  rewrite (to_int_id n), (to_size_t_id n) by (consts; lia).
  rewrite Hsz.
  destruct (Z.ltb_spec n (to_size_t (bc + (4294967296 + size)))) as [Hlt|Hge].
  - destruct (Z.ltb_spec size 128) as [_|]; [|lia]. norm.
    destruct (sb_add_handle W HW h l ib bc n m a d 128 B)
      as (h1 & l1 & m1 & a1 & d1 & E1 & B1 & _); [lia|lia|].
    rewrite E1. clear E1. norm.
    pose proof B1 as [Hib1 Ha1 Hd1 Hb1].
    destruct a1 as [|sb off|]; [destruct Ha1 as (_ & ? & _); lia| |contradiction].
    destruct Ha1 as (-> & Ha1).
    assert (Hne : sb <> ib) by (intros ->; congruence).
    step. step. cbn [ptr_add].
    erewrite memcpy_outside; [reflexivity|lk|lia|].
    rewrite Hd1. consts. lia.
  - norm. step. step.
    destruct a as [|sb off|]; [| |contradiction].
    + destruct Ha as (-> & _). cbn [ptr_add Z.eqb]. unfold memcpy.
      destruct (Z.eqb_spec (4294967296 + size) 0); [lia|reflexivity].
    + destruct Ha as (-> & Ha).
      assert (Hne : sb <> ib) by (intros ->; congruence).
      cbn [ptr_add].
      erewrite memcpy_outside; [reflexivity|lk|lia|].
      rewrite Hd. consts. lia.
Qed.

Lemma negative_size_append_faults_witness :
  write_image_to_mem world_ok (Ptr 1 0) (bytes_of [1; 2; 3]) (-1) s_with_handle = None.
Proof.
  apply (negative_size_append_faults world_ok (st_heap s_with_handle) [] (Ptr 1 0) 128
           (bytes_of [1; 2; 3]) (-1)).
  - intros ? ?. reflexivity.
  - reflexivity.
  - reflexivity.
  - vm_compute. discriminate.
  - lia.
Defined.

Lemma owned_blocks_agree h h' ib bc n m a d :
  buffer_at h ib bc n m a d -> buffer_at h' ib bc n m a d ->
  owned_blocks h' (Ptr ib 0) = owned_blocks h (Ptr ib 0).
Proof.
  intros [Hib _ _ _] [Hib' _ _ _]. unfold owned_blocks. rewrite Hib, Hib'. reflexivity.
Qed.

(** X12. Two transcode calls on the same input do not share anything: the
    second returns a different handle, the two handles own disjoint blocks,
    and after the second call each still reads exactly what its own writer
    produced. *)
Theorem two_transcodes_are_independent W f1 f2 h l p size w0 h0 w ht pixels
    chunks1 result1 chunks2 result2 :
  never_fails W ->
  (forall h', webp_get_info W h' p size = Some (w0, h0)) ->
  (forall h', webp_decode_rgba W h' p size = Some (w, ht, pixels)) ->
  writer_output W f1 w ht pixels = (chunks1, result1) ->
  writer_output W f2 w ht pixels = (chunks2, result2) ->
  result1 <> 0 -> result2 <> 0 ->
  chunks_fit chunks1 = true -> chunks_fit chunks2 = true ->
  exists p1 s1 p2 s2 a1 a2,
    transcode W f1 p size (State h l) = Some (p1, s1)
    /\ transcode W f2 p size s1 = Some (p2, s2)
    /\ p1 <> p2
    /\ (forall b, b ∈ owned_blocks (st_heap s2) p1 ->
                  b ∉ owned_blocks (st_heap s2) p2)
    /\ get_num_bytes_from_handle p1 s2 = Some (total_size chunks1, s2)
    /\ get_image_bytes_from_handle p1 s2 = Some (a1, s2)
    /\ read_bytes (st_heap s2) a1 (total_size chunks1) = Some (concat chunks1)
    /\ get_num_bytes_from_handle p2 s2 = Some (total_size chunks2, s2)
    /\ get_image_bytes_from_handle p2 s2 = Some (a2, s2)
    /\ read_bytes (st_heap s2) a2 (total_size chunks2) = Some (concat chunks2).
Proof.
  intros HW E1 E2 Ew1 Ew2 Hr1 Hr2 Hfit1 Hfit2.
  destruct (transcode_outcome W HW f1 h l p size w0 h0 w ht pixels chunks1 result1
              (E1 h) (E2 h) Ew1 Hfit1)
    as (h1 & l1 & n1 & m1 & a1 & d1 & Ea & _ & B1 & T1 & _ & _).
  destruct (Z.eqb_spec result1 0) as [|_]; [contradiction|].
  set (ib1 := fresh_block (<[fresh_block h := Raw (Some <$> pixels)]> h)) in *.
  match type of Ea with _ = Some (_, State _ ?l) => set (l1' := l) in * end.
  destruct (transcode_outcome W HW f2 h1 l1' p size w0 h0 w ht pixels chunks2 result2
              (E1 h1) (E2 h1) Ew2 Hfit2)
    as (h2 & l2 & n2 & m2 & a2 & d2 & Eb & _ & B2 & T2 & Hnew & Hold).
  destruct (Z.eqb_spec result2 0) as [|_]; [contradiction|].
  set (ib2 := fresh_block (<[fresh_block h1 := Raw (Some <$> pixels)]> h1)) in *.
  assert (Hsame : forall b, is_Some (h1 !! b) -> h2 !! b = h1 !! b).
  { intros b Hb. apply Hold. intros O. rewrite (Hnew b O) in Hb.
    destruct Hb; discriminate. }
  pose proof (buffer_at_agree _ _ _ _ _ _ _ _ Hsame B1) as B1'.
  assert (Hne : ib1 <> ib2).
  { intros E. destruct B1 as [Hib1 _ _ _].
    rewrite E, (Hnew ib2) in Hib1 by (left; reflexivity). discriminate. }
  eexists (Ptr ib1 0), (State h1 l1'), (Ptr ib2 0), _, a1, a2.
  split; [exact Ea|]. split; [exact Eb|].
  split; [congruence|].
  cbn [st_heap]. split.
  { intros b Hb1 Hb2.
    rewrite (owned_blocks_agree _ _ _ _ _ _ _ _ B1 B1') in Hb1.
    apply (owned_blocks_live _ _ _ _ _ _ _ _ B1) in Hb1.
    apply owns_owned_blocks in Hb2. rewrite (Hnew b Hb2) in Hb1.
    destruct Hb1; discriminate. }
  split; [eapply get_num_bytes_run, B1'|].
  split; [eapply get_image_bytes_run, B1'|].
  split; [eapply read_bytes_buffer; eassumption|].
  split; [eapply get_num_bytes_run, B2|].
  split; [eapply get_image_bytes_run, B2|].
  eapply read_bytes_buffer; eassumption.
Qed.

Lemma two_transcodes_are_independent_witness :
  exists p1 s1 p2 s2 a1 a2,
    transcode world_ok PNG (Ptr 7 0) 10 s_input = Some (p1, s1)
    /\ transcode world_ok JPG (Ptr 7 0) 10 s1 = Some (p2, s2)
    /\ p1 <> p2
    /\ (forall b, b ∈ owned_blocks (st_heap s2) p1 ->
                  b ∉ owned_blocks (st_heap s2) p2)
    /\ get_num_bytes_from_handle p1 s2 = Some (4, s2)
    /\ get_image_bytes_from_handle p1 s2 = Some (a1, s2)
    /\ read_bytes (st_heap s2) a1 4 = Some (bytes_of [137; 80; 78; 71])
    /\ get_num_bytes_from_handle p2 s2 = Some (3, s2)
    /\ get_image_bytes_from_handle p2 s2 = Some (a2, s2)
    /\ read_bytes (st_heap s2) a2 3 = Some (bytes_of [255; 216; 255]).
Proof.
  apply (two_transcodes_are_independent world_ok PNG JPG (st_heap s_input) []
           (Ptr 7 0) 10 1 1 1 1 (bytes_of [255; 0; 0; 255])
           [bytes_of [137; 80; 78]; bytes_of [71]] 1
           [bytes_of [255]; bytes_of [216]; bytes_of [255]] 1).
  - intros ? ?. reflexivity.
  - intros ?. reflexivity.
  - intros ?. reflexivity.
  - reflexivity.
  - reflexivity.
  - discriminate.
  - discriminate.
  - reflexivity.
  - reflexivity.
Defined.
